(** * The job-lifecycle mock server of phylum-dev/cli

    A shallow embedding of [tests/mock_server.py]: the in-memory job
    store ([jobs], [job_status]), the generator that drives a job's
    status, the voluptuous schemas of the two validated routes, and
    the handlers [put_packages], [get_status] and [auth_login].

    Python values are kept as Python has them: a [dict] is an
    insertion-ordered association list with unique keys, [d[k] = v]
    overwrites in place or appends, a generator is the list of values
    it has yet to yield.  The two sources of outside input,
    [time.time()] and [uuid4()], are oracles indexed by the number of
    calls made so far. *)

From stdpp Require Import base strings list gmap fin_maps pretty.
From Stdlib Require Import ZArith Lia Sorted.
From Stdlib Require Import Ascii.

Set Warnings "-register-all".

Local Open Scope Z_scope.
Local Open Scope string_scope.
Local Open Scope list_scope.

(** ** Python values *)

(** The values that occur in request payloads and in job records.
    A float is kept as the decimal literal of the source
    ([VFloat 314 (-2)] is [3.14]); no arithmetic is done on it. *)
Inductive value : Type :=
| VNone
| VBool (b : bool)
| VInt (z : Z)
| VFloat (mantissa exponent : Z)
| VStr (s : string)
| VList (items : list value)
| VDict (entries : list (string * value)).

(** A [dict] with string keys, in insertion order. *)
Abbreviation pydict := (list (string * value)).

Module Dict.

(** [d.get(k)] *)
Fixpoint get (k : string) (d : pydict) : option value :=
  match d with
  | [] => None
  | (k', v) :: d' => if String.eqb k' k then Some v else get k d'
  end.

(** [d[k] = v]: an existing key keeps its position. *)
Fixpoint set (k : string) (v : value) (d : pydict) : pydict :=
  match d with
  | [] => [(k, v)]
  | (k', v') :: d' =>
      if String.eqb k' k then (k', v) :: d' else (k', v') :: set k v d'
  end.

(** [k in d] *)
Definition mem (k : string) (d : pydict) : bool :=
  match get k d with Some _ => true | None => false end.

(** [bool(d)]: a dict is true when it is not empty. *)
Definition truthy (d : pydict) : bool :=
  match d with [] => false | _ :: _ => true end.

Definition keys (d : pydict) : list string := map fst d.

End Dict.

(** ** Generators *)

(** A generator object, as the values it has yet to yield.  A
    generator that has run to its end stays exhausted. *)
Abbreviation generator := (list string).

(** [next(g)]: [None] stands for [StopIteration]. *)
Definition next (g : generator) : option (string * generator) :=
  match g with
  | [] => None
  | s :: g' => Some (s, g')
  end.

(** [update_status()]: a fresh generator over the status tuple. *)
Definition update_status : generator := ["NEW"; "PENDING"; "COMPLETED"].

(** ** The server's state *)

(** The two module-level dicts, and how often the clock and the
    uuid source have been read. *)
Record world : Type := World {
  jobs : gmap string pydict;
  job_status : gmap string generator;
  time_calls : nat;
  uuid_calls : nat
}.

Definition initial : world :=
  {| jobs := ∅; job_status := ∅; time_calls := 0; uuid_calls := 0 |}.

Definition with_jobs (f : gmap string pydict → gmap string pydict) (w : world) : world :=
  {| jobs := f (jobs w); job_status := job_status w;
     time_calls := time_calls w; uuid_calls := uuid_calls w |}.

Definition with_job_status (f : gmap string generator → gmap string generator)
    (w : world) : world :=
  {| jobs := jobs w; job_status := f (job_status w);
     time_calls := time_calls w; uuid_calls := uuid_calls w |}.

(** What a handler hands back to Flask: a body with a status code, or
    an exception that leaves the handler uncaught.  A body is kept as
    the value given to [json.dumps]. *)
Inductive path_elem : Type :=
| PKey (k : string)
| PIdx (i : nat).

Record invalid : Type := Invalid { err_msg : string; err_path : list path_elem }.

Inductive exn : Type :=
| StopIteration
| TypeError
| MultipleInvalid (errors : list invalid).

Inductive outcome : Type :=
| Response (body : value) (code : Z)
| Raised (e : exn).

(** ** Schemas *)

(** The fragment of voluptuous the server uses: the type [str], a
    list schema with one element schema, and a dict schema whose keys
    are plain literals or wrapped in [Required]. *)
Inductive marker : Type :=
| Plain (k : string)
| Required (k : string).

Definition marker_key (m : marker) : string :=
  match m with Plain k | Required k => k end.

Definition is_required (m : marker) : bool :=
  match m with Required _ => true | Plain _ => false end.

Inductive schema : Type :=
| SStr
| SList (elem : schema)
| SDict (fields : list (marker * schema)).

(** A compiled schema: given the path walked so far and the data, the
    errors to raise ([[]] when the data is valid). *)
Abbreviation validator := (list path_elem → value → list invalid).

Module Voluptuous.

(** The loop of [validate_sequence]: each item is validated under
    its index.  An error from deeper than the item itself is raised
    at once; an error at the item is collected, and the collected
    errors are raised after the last item. *)
Fixpoint validate_sequence (validate : validator) (path : list path_elem)
    (i : nat) (data : list value) (errors : list invalid) : list invalid :=
  match data with
  | [] => errors
  | v :: data' =>
      let index_path := path ++ [PIdx i] in
      match validate index_path v with
      | [] => validate_sequence validate path (S i) data' errors
      | e :: es =>
          if (length index_path <? length (err_path e))%nat
          then e :: es
          else validate_sequence validate path (S i) data' (errors ++ [e])
      end
  end.

(** The schema entry whose key is the literal [key]. *)
Fixpoint candidate (key : string) (compiled : list (marker * validator))
    : option (marker * validator) :=
  match compiled with
  | [] => None
  | (skey, cvalue) :: rest =>
      if String.eqb (marker_key skey) key then Some (skey, cvalue)
      else candidate key rest
  end.

(** [required_keys.discard(skey)] *)
Definition discard (skey : marker) (required_keys : list marker) : list marker :=
  List.filter (λ m, negb (String.eqb (marker_key m) (marker_key skey))) required_keys.

(** The loop of [validate_mapping] over the entries of the data: a
    key with no schema entry is an extra key (the schemas are built
    with the default [extra=PREVENT_EXTRA]); otherwise the value is
    validated and the key counts as provided. *)
Fixpoint validate_entries (compiled : list (marker * validator))
    (path : list path_elem) (data : pydict)
    (errors : list invalid) (required_keys : list marker)
    : list invalid * list marker :=
  match data with
  | [] => (errors, required_keys)
  | (key, v) :: data' =>
      let key_path := path ++ [PKey key] in
      match candidate key compiled with
      | Some (skey, cvalue) =>
          validate_entries compiled path data'
            (errors ++ cvalue key_path v) (discard skey required_keys)
      | None =>
          validate_entries compiled path data'
            (errors ++ [Invalid "extra keys not allowed" key_path]) required_keys
      end
  end.

(** [validate_mapping]: after the entries, every required key that
    was not provided is an error. *)
Definition validate_mapping (compiled : list (marker * validator))
    (path : list path_elem) (data : pydict) : list invalid :=
  let all_required_keys := List.filter is_required (map fst compiled) in
  let '(errors, required_keys) :=
    validate_entries compiled path data [] all_required_keys in
  errors ++
  map (λ m, Invalid "required key not provided" (path ++ [PKey (marker_key m)]))
      required_keys.

(** [Schema._compile] *)
Fixpoint compile (s : schema) : validator :=
  match s with
  | SStr => λ path data,
      match data with
      | VStr _ => []
      | _ => [Invalid "expected str" path]
      end
  | SList elem => λ path data,
      match data with
      | VList items => validate_sequence (compile elem) path 0 items []
      | _ => [Invalid "expected a list" path]
      end
  | SDict fields =>
      let compiled :=
        (fix compile_fields (fs : list (marker * schema)) :=
           match fs with
           | [] => []
           | (skey, svalue) :: fs' => (skey, compile svalue) :: compile_fields fs'
           end) fields in
      λ path data,
      match data with
      | VDict entries => validate_mapping compiled path entries
      | _ => [Invalid "expected a dictionary" path]
      end
  end.

(** [Schema.__call__]: [None] when the data is valid, otherwise the
    [MultipleInvalid] that is raised. *)
Definition call (s : schema) (data : value) : option exn :=
  match compile s [] data with
  | [] => None
  | e :: es => Some (MultipleInvalid (e :: es))
  end.

End Voluptuous.

(** [validate_request(req_json, schema)]: the schema is called on the
    request and what it returns is dropped.  The [print] before it
    writes to standard output, which is no part of the state. *)
Definition validate_request (req_json : value) (s : schema) : option exn :=
  Voluptuous.call s req_json.

(** What makes an entry of the data valid for a dict schema: its key
    has a schema entry, and the value passes that entry's validator. *)
Definition entry_valid (compiled : list (marker * validator))
    (path : list path_elem) (kv : string * value) : Prop :=
  match Voluptuous.candidate kv.1 compiled with
  | Some (_, cvalue) => cvalue (path ++ [PKey kv.1]) kv.2 = []
  | None => False
  end.

(** ** The handlers *)

Section Server.

(** [clock n] is what [int(time.time())] returns at its [n]-th
    call, [uuid4 n] what [str(uuid4())] returns at its [n]-th. *)
Variable clock : nat → Z.
Variable uuid4 : nat → string.

(** [int(time.time())] *)
Definition time_time (w : world) : Z * world :=
  (clock (time_calls w),
   {| jobs := jobs w; job_status := job_status w;
      time_calls := S (time_calls w); uuid_calls := uuid_calls w |}).

(** [str(uuid4())] *)
Definition str_uuid4 (w : world) : string * world :=
  (uuid4 (uuid_calls w),
   {| jobs := jobs w; job_status := job_status w;
      time_calls := time_calls w; uuid_calls := S (uuid_calls w) |}).

(** The dict that [build_job] returns. *)
Definition job_record (started_at : Z) : pydict :=
  [ ("id", VStr "59482a54-423b-448d-8325-f171c9dc336b");
    ("last_updated", VInt started_at);
    ("started_at", VInt started_at);
    ("status", VStr "PENDING");
    ("user_id", VStr "86bb664a-5331-489b-8901-f052f155ec79");
    ("packages",
     VList
       [ VDict
           [ ("heuristics",
              VList [ VDict [ ("score", VFloat 314 (-2));
                              ("data", VDict [("foo", VStr "bar")]) ] ]);
             ("last_updated", VInt started_at);
             ("license", VNone);
             ("name", VStr "foo");
             ("risk", VInt 60);
             ("status", VStr "NEW");
             ("type", VStr "npm");
             ("version", VStr "1.0.0");
             ("vulnerabilities", VList []);
             ("dependencies",
              VList
                [ VDict
                    [ ("heuristics", VList []);
                      ("last_updated", VInt started_at);
                      ("license", VNone);
                      ("name", VStr "bar");
                      ("risk", VInt 60);
                      ("status", VStr "COMPLETED");
                      ("type", VStr "npm");
                      ("version", VStr "2.3.4");
                      ("vulnerabilities", VList []) ];
                  VDict
                    [ ("heuristics",
                       VList [ VDict [ ("score", VInt 42); ("data", VNone) ] ]);
                      ("last_updated", VInt started_at);
                      ("license", VNone);
                      ("name", VStr "baz");
                      ("risk", VInt 60);
                      ("status", VStr "NEW");
                      ("type", VStr "npm");
                      ("version", VStr "9.8.7");
                      ("vulnerabilities", VList []) ] ]) ] ]) ].

Definition build_job (job_id : string) (w : world) : pydict * world :=
  let '(started_at, w) := time_time w in
  let status_it := update_status in
  let w := with_job_status (insert job_id status_it) w in
  (job_record started_at, w).

Definition packages_schema : schema :=
  SDict
    [ (Plain "packages",
       SList (SDict [ (Required "name", SStr);
                      (Required "version", SStr);
                      (Required "type", SStr) ])) ].

(** [PUT /request/packages], applied to [request.json].  Nothing
    catches what [validate_request] raises, so a failed validation
    leaves the handler before an id is drawn. *)
Definition put_packages (request_json : value) (w : world) : outcome * world :=
  match validate_request request_json packages_schema with
  | Some e => (Raised e, w)
  | None =>
      let '(job_id, w) := str_uuid4 w in
      let '(job, w) := build_job job_id w in
      let w := with_jobs (insert job_id job) w in
      (Response (VDict [("job_id", VStr job_id)]) 201, w)
  end.

(** [GET /request/packages/<job_id>].  [jobs.get(job_id, {})] is
    the stored dict or a fresh empty one; [job_status.get(job_id,
    {})] is the stored generator or an empty dict, on which [next]
    raises [TypeError].  The two assignments write into the stored
    dict, [last_updated] before [next] is called. *)
Definition get_status (job_id : string) (w : world) : outcome * world :=
  let job := default [] (jobs w !! job_id) in
  if Dict.truthy job then
    let status := job_status w !! job_id in
    let '(now, w) := time_time w in
    let job := Dict.set "last_updated" (VInt now) job in
    let w := with_jobs (insert job_id job) w in
    match status with
    | None => (Raised TypeError, w)
    | Some g =>
        match next g with
        | None => (Raised StopIteration, w)
        | Some (s, g') =>
            let w := with_job_status (insert job_id g') w in
            let job := Dict.set "status" (VStr s) job in
            let w := with_jobs (insert job_id job) w in
            (Response (VDict job) 200, w)
        end
    end
  else
    (Response (VDict job) 404, w).

Definition login_schema : schema :=
  SDict [ (Required "login", SStr); (Required "password", SStr) ].

(** [POST /auth/login]; Flask answers a returned dict with 200. *)
Definition auth_login (request_json : value) (w : world) : outcome * world :=
  match validate_request request_json login_schema with
  | Some e => (Raised e, w)
  | None =>
      (Response (VDict [ ("access_token", VStr "asdfghjkl");
                         ("refresh_token", VStr "qwertyuio") ]) 200, w)
  end.

(** ** Runs of the server *)

Inductive request : Type :=
| PUT_packages (request_json : value)
| GET_status (job_id : string)
| POST_login (request_json : value).

Definition handle (r : request) (w : world) : outcome * world :=
  match r with
  | PUT_packages request_json => put_packages request_json w
  | GET_status job_id => get_status job_id w
  | POST_login request_json => auth_login request_json w
  end.

(** The requests of [rs] served one after the other: the outcomes
    in order, and the state they leave. *)
Fixpoint run (rs : list request) (w : world) : list outcome * world :=
  match rs with
  | [] => ([], w)
  | r :: rs' =>
      let '(o, w) := handle r w in
      let '(os, w) := run rs' w in
      (o :: os, w)
  end.

End Server.

(** ** What a client sees *)

(** A normal status snapshot is a 200 response carrying a dict. *)
Definition snapshot (o : outcome) : option pydict :=
  match o with
  | Response (VDict d) 200 => Some d
  | _ => None
  end.

Definition snapshot_field (k : string) (o : outcome) : option value :=
  d ← snapshot o; Dict.get k d.

Definition snapshot_status (o : outcome) : option string :=
  match snapshot_field "status" o with
  | Some (VStr s) => Some s
  | _ => None
  end.

Definition snapshot_last_updated (o : outcome) : option Z :=
  match snapshot_field "last_updated" o with
  | Some (VInt t) => Some t
  | _ => None
  end.

(** The job id that a 201 response announces. *)
Definition issued_job_id (o : outcome) : option string :=
  match o with
  | Response (VDict d) 201 =>
      match Dict.get "job_id" d with
      | Some (VStr j) => Some j
      | _ => None
      end
  | _ => None
  end.

(** The job ids issued in a run, oldest first. *)
Definition issued (os : list outcome) : list string := omap issued_job_id os.

(** Whether [r] is a status poll on [job_id]. *)
Definition is_poll (job_id : string) (r : request) : bool :=
  match r with
  | GET_status j => String.eqb j job_id
  | _ => false
  end.

(** The outcomes of the status polls on [job_id], in the order in
    which they were served. *)
Fixpoint polls (job_id : string) (rs : list request) (os : list outcome)
    : list outcome :=
  match rs, os with
  | r :: rs', o :: os' =>
      if is_poll job_id r then o :: polls job_id rs' os' else polls job_id rs' os'
  | _, _ => []
  end.

(** ** The shape of a submission *)

Definition is_str (v : value) : bool :=
  match v with VStr _ => true | _ => false end.

Definition is_nonempty_str (v : value) : bool :=
  match v with VStr s => negb (String.eqb s "") | _ => false end.

Definition has_field (test : value → bool) (k : string) (d : pydict) : bool :=
  match Dict.get k d with Some v => test v | None => false end.

(** The contract in the words of the specification: a mapping that
    contains [packages], a sequence of records that each contain
    non-empty strings [name], [version] and [type]. *)
Definition stated_record (v : value) : bool :=
  match v with
  | VDict d =>
      has_field is_nonempty_str "name" d &&
      has_field is_nonempty_str "version" d &&
      has_field is_nonempty_str "type" d
  | _ => false
  end.

Definition stated_contract (payload : value) : bool :=
  match payload with
  | VDict d =>
      has_field (λ v, match v with VList items => forallb stated_record items
                               | _ => false end) "packages" d
  | _ => false
  end.

(** The contract that the schema enforces: the records hold exactly
    the keys [name], [version] and [type], each with a string (which
    may be empty), and the mapping holds no key but [packages]. *)
Definition record_key (k : string) : bool :=
  String.eqb k "name" || String.eqb k "version" || String.eqb k "type".

Definition exact_record (v : value) : bool :=
  match v with
  | VDict d =>
      forallb (λ kv, record_key kv.1 && is_str kv.2) d &&
      Dict.mem "name" d && Dict.mem "version" d && Dict.mem "type" d
  | _ => false
  end.

Definition record_list (v : value) : bool :=
  match v with
  | VList items => forallb exact_record items
  | _ => false
  end.

Definition exact_contract (payload : value) : bool :=
  match payload with
  | VDict d =>
      forallb (λ kv, String.eqb kv.1 "packages" && record_list kv.2) d &&
      Dict.mem "packages" d
  | _ => false
  end.

(** A mapping without the [packages] key. *)
Definition lacks_packages (payload : value) : bool :=
  match payload with
  | VDict d => negb (Dict.mem "packages" d)
  | _ => false
  end.

(** ** Reading a package tree *)

Definition str_field (k : string) (d : pydict) : option string :=
  match Dict.get k d with
  | Some (VStr s) => Some s
  | _ => None
  end.

(** The ecosystem, name and version of a package node. *)
Definition package_id (v : value) : option (string * string * string) :=
  match v with
  | VDict d =>
      type ← str_field "type" d;
      name ← str_field "name" d;
      version ← str_field "version" d;
      Some (type, name, version)
  | _ => None
  end.

(** The child nodes of a package node. *)
Definition dependencies (v : value) : list value :=
  match v with
  | VDict d =>
      match Dict.get "dependencies" d with
      | Some (VList deps) => deps
      | _ => []
      end
  | _ => []
  end.

(** ** Invariants of the store *)

(** The job [job_id] is stored with a non-empty record, its cursor
    has [g] left to yield, and [job_id] was drawn from [uuid4]. *)
Definition tracks (uuid4 : nat → string) (job_id : string) (g : generator)
    (w : world) : Prop :=
  (∃ job, jobs w !! job_id = Some job ∧ Dict.truthy job = true) ∧
  job_status w !! job_id = Some g ∧
  ∃ c, (c < uuid_calls w)%nat ∧ job_id = uuid4 c.

(** Every stored record carries the fixed [id] of [build_job]. *)
Definition fixed_ids (w : world) : Prop :=
  ∀ job_id job, jobs w !! job_id = Some job →
    Dict.get "id" job = Some (VStr "59482a54-423b-448d-8325-f171c9dc336b").

(** Every stored job has a stored cursor. *)
Definition cursors_cover (w : world) : Prop :=
  ∀ job_id, is_Some (jobs w !! job_id) → is_Some (job_status w !! job_id).

(** A clock that never runs backwards. *)
Definition monotone (clock : nat → Z) : Prop :=
  ∀ i j, (i ≤ j)%nat → (clock i ≤ clock j)%Z.

(** ** Sample inputs *)

Module Sample.

Definition clock (n : nat) : Z := 1600000000 + Z.of_nat n.

Definition uuid4 (n : nat) : string := pretty n.

Definition pkg (name version type : value) : value :=
  VDict [("name", name); ("version", version); ("type", type)].

(** [{"packages":[{"name":"foo","version":"1.0.0","type":"npm"}]}] *)
Definition foo : value :=
  VDict [("packages", VList [pkg (VStr "foo") (VStr "1.0.0") (VStr "npm")])].

(** [{"packages":[{"name":"foo"}]}] *)
Definition foo_name_only : value :=
  VDict [("packages", VList [VDict [("name", VStr "foo")]])].

(** [{"packages":[{"name":"","version":"1.0.0","type":"npm"}]}] *)
Definition unnamed : value :=
  VDict [("packages", VList [pkg (VStr "") (VStr "1.0.0") (VStr "npm")])].

(** One job, polled five times between other requests. *)
Definition session : list request :=
  [ GET_status "0"; GET_status "nonexistent-id"; PUT_packages foo;
    GET_status "0"; GET_status "1"; GET_status "0"; PUT_packages foo_name_only;
    GET_status "0"; GET_status "0" ].

(** Two submissions, then one poll on each of the two jobs. *)
Definition two_jobs : list request :=
  [ PUT_packages foo; PUT_packages foo; GET_status "0"; GET_status "1" ].

End Sample.

(** ** Further invariants of the store *)

(** Every stored record is a non-empty dict. *)
Definition records_nonempty (w : world) : Prop :=
  ∀ job_id job, jobs w !! job_id = Some job → Dict.truthy job = true.

(** The record stored under [job_id] displays the status [s]. *)
Definition shows (job_id s : string) (w : world) : Prop :=
  ∃ job, jobs w !! job_id = Some job ∧ Dict.get "status" job = Some (VStr s).

(** Every stored record was started at a reading of the clock and
    last updated at the same or a later one. *)
Definition stamped (clock : nat → Z) (w : world) : Prop :=
  ∀ job_id job, jobs w !! job_id = Some job →
    ∃ c c', (c ≤ c' < time_calls w)%nat ∧
            Dict.get "started_at" job = Some (VInt (clock c)) ∧
            Dict.get "last_updated" job = Some (VInt (clock c')).

(** ** The shape of a login *)

(** What [login_schema] asks for: the keys [login] and [password],
    both present, both holding a string, and no other key. *)
Definition login_key (k : string) : bool :=
  String.eqb k "login" || String.eqb k "password".

Definition login_contract (payload : value) : bool :=
  match payload with
  | VDict d =>
      forallb (λ kv, login_key kv.1 && is_str kv.2) d &&
      Dict.mem "login" d && Dict.mem "password" d
  | _ => false
  end.

(** ** The lock-file client *)

(** [utils/package-lock_submit.py]: the package list read off a
    decoded [package-lock.json], and the text written to the standard
    input of [phylum-cli batch].  Opening the file, decoding it and
    running the subprocess are left to the caller. *)
Module PackageLock.

(** The exceptions that reading the decoded lock file can raise. *)
Inductive error : Type :=
| KeyError (key : string)
| TypeError
| AttributeError.

Inductive result (A : Type) : Type :=
| Ok (a : A)
| Raise (e : error).

Arguments Ok {A} a.
Arguments Raise {A} e.

(** [obj[key]] with a [str] key: a dict looks the key up and raises
    [KeyError] when it is missing; a list or a string takes no [str]
    index and a number, [True], [False] or [None] takes no index at
    all, which are all [TypeError]. *)
Definition getitem (obj : value) (key : string) : result value :=
  match obj with
  | VDict d =>
      match Dict.get key d with
      | Some v => Ok v
      | None => Raise (KeyError key)
      end
  | _ => Raise TypeError
  end.

(** [obj.items()]: only a dict has the method. *)
Definition items (obj : value) : result pydict :=
  match obj with
  | VDict d => Ok d
  | _ => Raise AttributeError
  end.

(** The loop [for key, val in ...: pkg_list.append((key,
    val['version']))]; the first entry that raises ends it. *)
Fixpoint collect (entries : pydict) (pkg_list : list (string * value))
    : result (list (string * value)) :=
  match entries with
  | [] => Ok pkg_list
  | (key, val) :: rest =>
      match getitem val "version" with
      | Ok version => collect rest (pkg_list ++ [(key, version)])
      | Raise e => Raise e
      end
  end.

(** The package list of the main block, from [pkg_data]. *)
Definition pkg_list (pkg_data : value) : result (list (string * value)) :=
  match getitem pkg_data "dependencies" with
  | Ok dependencies =>
      match items dependencies with
      | Ok entries => collect entries []
      | Raise e => Raise e
      end
  | Raise e => Raise e
  end.

(** What one dependency contributes to the package list: its key,
    and the [version] its dict holds. *)
Definition listed (kv : string * value) (p : string * value) : Prop :=
  p.1 = kv.1 ∧ ∃ fields, kv.2 = VDict fields ∧ Dict.get "version" fields = Some p.2.






End PackageLock.

(** ** More sample inputs *)

Module Sample2.

(** A uuid source that repeats itself. *)
Definition stuck_uuid4 (n : nat) : string := "0".

(** [{"login":"alice","password":""}] *)
Definition credentials : value :=
  VDict [("login", VStr "alice"); ("password", VStr "")].

(** A decoded lock file with two dependencies, the second with a
    nested one. *)
Definition lockfile : value :=
  VDict
    [ ("name", VStr "demo");
      ("lockfileVersion", VInt 1);
      ("dependencies",
       VDict
         [ ("left-pad", VDict [("version", VStr "1.3.0")]);
           ("express",
            VDict [ ("version", VStr "4.17.1");
                    ("dependencies",
                     VDict [("qs", VDict [("version", VStr "6.7.0")])]) ]) ]) ].

End Sample2.

(** * Properties *)

(** ** Dicts *)

Lemma get_set_eq k v d : Dict.get k (Dict.set k v d) = Some v.
Proof.
  induction d as [|[k' v'] d IH]; simpl.
  - by rewrite String.eqb_refl.
  - destruct (String.eqb k' k) eqn:E; simpl; by rewrite E.
Qed.

Lemma get_set_ne k k' v d : k ≠ k' → Dict.get k' (Dict.set k v d) = Dict.get k' d.
Proof.
  intros Hne. induction d as [|[k0 v0] d IH]; simpl.
  - by apply String.eqb_neq in Hne as ->.
  - destruct (String.eqb k0 k) eqn:E; simpl.
    + apply String.eqb_eq in E as ->. by apply String.eqb_neq in Hne as ->.
    + by rewrite IH.
Qed.

Lemma truthy_set k v d : Dict.truthy (Dict.set k v d) = true.
Proof. destruct d as [|[k' v'] d]; simpl; [done|]. by destruct (String.eqb k' k). Qed.

Lemma keys_set k v d : Dict.mem k d = true → Dict.keys (Dict.set k v d) = Dict.keys d.
Proof.
  unfold Dict.mem, Dict.keys. induction d as [|[k' v'] d IH]; simpl; [done|].
  destruct (String.eqb k' k) eqn:E; simpl; [done|]. intros H. by rewrite IH.
Qed.

Lemma mem_cons key k v d :
  Dict.mem key ((k, v) :: d) = String.eqb k key || Dict.mem key d.
Proof. unfold Dict.mem. simpl. by destruct (String.eqb k key). Qed.

(** ** One request at a time *)

Section Steps.

Variable clock : nat → Z.
Variable uuid4 : nat → string.

Lemma put_packages_invalid request_json e w :
  validate_request request_json packages_schema = Some e →
  put_packages clock uuid4 request_json w = (Raised e, w).
Proof. intros H. unfold put_packages. by rewrite H. Qed.

Lemma put_packages_valid request_json w :
  validate_request request_json packages_schema = None →
  put_packages clock uuid4 request_json w =
    (Response (VDict [("job_id", VStr (uuid4 (uuid_calls w)))]) 201,
     {| jobs := <[uuid4 (uuid_calls w) := job_record (clock (time_calls w))]> (jobs w);
        job_status := <[uuid4 (uuid_calls w) := update_status]> (job_status w);
        time_calls := S (time_calls w);
        uuid_calls := S (uuid_calls w) |}).
Proof. intros H. unfold put_packages. by rewrite H. Qed.

Lemma get_status_unknown job_id w :
  jobs w !! job_id = None →
  get_status clock job_id w = (Response (VDict []) 404, w).
Proof. intros H. unfold get_status. by rewrite H. Qed.

Lemma get_status_next job_id job s g w :
  jobs w !! job_id = Some job → Dict.truthy job = true →
  job_status w !! job_id = Some (s :: g) →
  let job' := Dict.set "status" (VStr s)
                (Dict.set "last_updated" (VInt (clock (time_calls w))) job) in
  get_status clock job_id w =
    (Response (VDict job') 200,
     {| jobs := <[job_id := job']> (jobs w);
        job_status := <[job_id := g]> (job_status w);
        time_calls := S (time_calls w);
        uuid_calls := uuid_calls w |}).
Proof.
  intros Hj Ht Hs. unfold get_status. rewrite Hj. simpl. rewrite Ht, Hs. simpl.
  unfold with_jobs, with_job_status. simpl. by rewrite insert_insert_eq.
Qed.

Lemma get_status_exhausted job_id job w :
  jobs w !! job_id = Some job → Dict.truthy job = true →
  job_status w !! job_id = Some [] →
  get_status clock job_id w =
    (Raised StopIteration,
     {| jobs := <[job_id := Dict.set "last_updated" (VInt (clock (time_calls w))) job]>
                  (jobs w);
        job_status := job_status w;
        time_calls := S (time_calls w);
        uuid_calls := uuid_calls w |}).
Proof. intros Hj Ht Hs. unfold get_status. rewrite Hj. simpl. by rewrite Ht, Hs. Qed.

Lemma run_cons r rs w :
  run clock uuid4 (r :: rs) w =
    ((handle clock uuid4 r w).1 :: (run clock uuid4 rs (handle clock uuid4 r w).2).1,
     (run clock uuid4 rs (handle clock uuid4 r w).2).2).
Proof.
  simpl. destruct (handle clock uuid4 r w) as [o w1]. simpl.
  by destruct (run clock uuid4 rs w1) as [os w2].
Qed.

End Steps.

(** ** What a request leaves alone *)

Section Frame.

Variable clock : nat → Z.
Variable uuid4 : nat → string.

(** A status poll touches no entry but the polled one, and never
    the uuid source. *)
Lemma get_status_frame job_id other w :
  other ≠ job_id →
  jobs (get_status clock job_id w).2 !! other = jobs w !! other ∧
  job_status (get_status clock job_id w).2 !! other = job_status w !! other.
Proof.
  intros Hne. unfold get_status.
  destruct (Dict.truthy (default [] (jobs w !! job_id))); [|done].
  simpl. destruct (job_status w !! job_id) as [[|s g]|]; simpl;
    rewrite ?lookup_insert_ne by done; done.
Qed.

Lemma get_status_calls job_id w :
  uuid_calls (get_status clock job_id w).2 = uuid_calls w ∧
  (time_calls w ≤ time_calls (get_status clock job_id w).2)%nat.
Proof.
  unfold get_status.
  destruct (Dict.truthy (default [] (jobs w !! job_id))); [|done].
  simpl. destruct (job_status w !! job_id) as [[|s g]|]; simpl; split; lia.
Qed.

Lemma auth_login_world request_json w :
  (auth_login request_json w).2 = w.
Proof. unfold auth_login. by destruct (validate_request _ _). Qed.

Lemma put_packages_calls request_json w :
  (uuid_calls w ≤ uuid_calls (put_packages clock uuid4 request_json w).2)%nat ∧
  (time_calls w ≤ time_calls (put_packages clock uuid4 request_json w).2)%nat.
Proof.
  destruct (validate_request request_json packages_schema) as [e|] eqn:E.
  - by rewrite (put_packages_invalid _ _ _ e).
  - rewrite put_packages_valid by done. simpl. lia.
Qed.

(** A submission touches no entry but the one of the id it draws. *)
Lemma put_packages_frame request_json other w :
  other ≠ uuid4 (uuid_calls w) →
  jobs (put_packages clock uuid4 request_json w).2 !! other = jobs w !! other ∧
  job_status (put_packages clock uuid4 request_json w).2 !! other
    = job_status w !! other.
Proof.
  intros Hne.
  destruct (validate_request request_json packages_schema) as [e|] eqn:E.
  - by rewrite (put_packages_invalid _ _ _ e).
  - rewrite put_packages_valid by done. simpl.
    by rewrite !lookup_insert_ne.
Qed.

Lemma handle_calls r w :
  (uuid_calls w ≤ uuid_calls (handle clock uuid4 r w).2)%nat ∧
  (time_calls w ≤ time_calls (handle clock uuid4 r w).2)%nat.
Proof.
  destruct r as [p|j|p]; simpl.
  - apply put_packages_calls.
  - destruct (get_status_calls j w) as [-> ?]. lia.
  - by rewrite auth_login_world.
Qed.

Hypothesis uuid4_inj : Inj (=) (=) uuid4.

(** A request other than a poll on [job_id] leaves the job and its
    cursor as they are. *)
Lemma tracks_other job_id g r w :
  tracks uuid4 job_id g w →
  is_poll job_id r = false →
  tracks uuid4 job_id g (handle clock uuid4 r w).2.
Proof.
  intros (Hjob & Hcur & c & Hc & ->) Hr.
  assert (∀ w', jobs w' !! uuid4 c = jobs w !! uuid4 c →
                job_status w' !! uuid4 c = job_status w !! uuid4 c →
                (uuid_calls w ≤ uuid_calls w')%nat →
                tracks uuid4 (uuid4 c) g w') as Hkeep.
  { intros w' Hj Hs Hu. unfold tracks. rewrite Hj, Hs.
    split; [done|]. split; [done|]. exists c. split; [lia|done]. }
  destruct r as [p|j|p]; simpl.
  - assert (uuid4 c ≠ uuid4 (uuid_calls w)) as Hne.
    { intros Heq. apply uuid4_inj in Heq. lia. }
    destruct (put_packages_frame p _ w Hne) as [Hj Hs].
    apply Hkeep; [done|done|]. apply put_packages_calls.
  - assert (uuid4 c ≠ j) as Hne.
    { simpl in Hr. apply String.eqb_neq in Hr. congruence. }
    destruct (get_status_frame j _ w Hne) as [Hj Hs].
    apply Hkeep; [done|done|]. by destruct (get_status_calls j w) as [-> _].
  - rewrite auth_login_world. by apply Hkeep.
Qed.

(** A poll on a job whose cursor has [s] next shows [s], stamped
    with the clock's reading, and moves the cursor on. *)
Lemma tracks_next job_id s g w :
  tracks uuid4 job_id (s :: g) w →
  snapshot_status (get_status clock job_id w).1 = Some s ∧
  snapshot_last_updated (get_status clock job_id w).1 = Some (clock (time_calls w)) ∧
  tracks uuid4 job_id g (get_status clock job_id w).2.
Proof.
  intros ((job & Hjob & Ht) & Hcur & c & Hc & ->).
  rewrite (get_status_next _ _ job s g) by done.
  unfold snapshot_status, snapshot_last_updated, snapshot_field. simpl.
  rewrite get_set_eq, get_set_ne, get_set_eq by done.
  split; [done|]. split; [done|].
  unfold tracks. simpl. rewrite !lookup_insert_eq.
  split; [|split; [done|by exists c]].
  eexists. split; [done|]. apply truthy_set.
Qed.

(** A poll on a job whose cursor is spent raises [StopIteration]
    and leaves the cursor spent. *)
Lemma tracks_exhausted job_id w :
  tracks uuid4 job_id [] w →
  (get_status clock job_id w).1 = Raised StopIteration ∧
  tracks uuid4 job_id [] (get_status clock job_id w).2.
Proof.
  intros ((job & Hjob & Ht) & Hcur & c & Hc & ->).
  rewrite (get_status_exhausted _ _ job) by done.
  split; [done|].
  unfold tracks. simpl. rewrite lookup_insert_eq.
  split; [|split; [done|by exists c]].
  eexists. split; [done|]. apply truthy_set.
Qed.

End Frame.

(** ** The life of one job *)

Section Lifecycle.

Variable clock : nat → Z.
Variable uuid4 : nat → string.
Hypothesis uuid4_inj : Inj (=) (=) uuid4.

Lemma polls_cons job_id r rs w :
  polls job_id (r :: rs) (run clock uuid4 (r :: rs) w).1 =
    let rest := polls job_id rs (run clock uuid4 rs (handle clock uuid4 r w).2).1 in
    if is_poll job_id r then (get_status clock job_id w).1 :: rest else rest.
Proof.
  rewrite run_cons. simpl.
  destruct r as [p|j|p]; simpl; try done.
  destruct (String.eqb j job_id) eqn:E; [|done].
  by apply String.eqb_eq in E as ->.
Qed.

Lemma is_poll_true job_id r : is_poll job_id r = true → r = GET_status job_id.
Proof.
  destruct r as [p|j|p]; try done. simpl. intros E.
  by apply String.eqb_eq in E as ->.
Qed.

(** The polls on a tracked job, however they are interleaved with
    other requests, show what the cursor has left, one value per
    poll, and raise [StopIteration] from then on. *)
Lemma polls_statuses job_id rs : ∀ w g,
  tracks uuid4 job_id g w →
  let obs := polls job_id rs (run clock uuid4 rs w).1 in
  map snapshot_status (take (length g) obs) = map Some (take (length obs) g) ∧
  Forall (λ o, o = Raised StopIteration) (drop (length g) obs).
Proof.
  induction rs as [|r rs IH]; intros w g Htr.
  { simpl. rewrite take_nil, drop_nil. split; constructor. }
  cbv zeta. rewrite polls_cons. cbv zeta.
  destruct (is_poll job_id r) eqn:Hr.
  - apply is_poll_true in Hr as ->. destruct g as [|s g].
    + destruct (tracks_exhausted clock uuid4 _ _ Htr) as [Ho Htr'].
      destruct (IH _ _ Htr') as [_ Hdrop].
      simpl in *. split; [done|]. by constructor.
    + destruct (tracks_next clock uuid4 _ _ _ _ Htr) as (Hs & _ & Htr').
      destruct (IH _ _ Htr') as [Htake Hdrop].
      simpl. by rewrite Hs, Htake.
  - by apply IH, tracks_other.
Qed.

Hypothesis clock_monotone : monotone clock.

Lemma lower_bound_HdRel (a : Z) (ts : list Z) :
  Forall (λ t, (a ≤ t)%Z) ts → HdRel Z.le a ts.
Proof. intros [|t ts' Ht _]; constructor; done. Qed.

Lemma later_readings (i j : nat) (ts : list Z) :
  (i ≤ j)%nat →
  Forall (λ t, (clock j ≤ t)%Z) ts → Forall (λ t, (clock i ≤ t)%Z) ts.
Proof.
  intros Hij Hts. eapply Forall_impl; [exact Hts|].
  intros t Ht. simpl in Ht. pose proof (clock_monotone i j Hij). lia.
Qed.

(** Each snapshot of a tracked job is stamped with the reading of
    the clock at its poll, so the stamps never go down; a poll
    that raises shows no stamp. *)
Lemma polls_stamps job_id rs : ∀ w g,
  tracks uuid4 job_id g w →
  let obs := polls job_id rs (run clock uuid4 rs w).1 in
  let stamps := omap snapshot_last_updated obs in
  map snapshot_last_updated (take (length g) obs) = map Some stamps ∧
  Forall (λ t, (clock (time_calls w) ≤ t)%Z) stamps ∧
  Sorted Z.le stamps.
Proof.
  induction rs as [|r rs IH]; intros w g Htr.
  { simpl. rewrite take_nil. repeat split; constructor. }
  cbv zeta. rewrite polls_cons. cbv zeta.
  pose proof (handle_calls clock uuid4 r w) as [_ Htime].
  destruct (is_poll job_id r) eqn:Hr.
  - apply is_poll_true in Hr as ->. simpl in Htime. destruct g as [|s g].
    + destruct (tracks_exhausted clock uuid4 _ _ Htr) as [Ho Htr'].
      destruct (IH _ _ Htr') as (Htake & Hlow & Hsorted).
      rewrite Ho. simpl in *. repeat split; [done| |done].
      by apply (later_readings _ _ _ Htime).
    + destruct (tracks_next clock uuid4 _ _ _ _ Htr) as (_ & Ht & Htr').
      destruct (IH _ _ Htr') as (Htake & Hlow & Hsorted).
      apply (later_readings _ _ _ Htime) in Hlow.
      simpl. rewrite Ht, Htake. repeat split.
      * constructor; [lia|done].
      * constructor; [done|]. by apply lower_bound_HdRel.
  - pose proof (tracks_other clock uuid4 uuid4_inj _ _ _ _ Htr Hr) as Htr'.
    destruct (IH _ _ Htr') as (Htake & Hlow & Hsorted).
    repeat split; [done| |done].
    by apply (later_readings _ _ _ Htime).
Qed.

End Lifecycle.

(** A valid submission leaves its job tracked, with a fresh cursor. *)
Lemma put_packages_tracks clock uuid4 request_json w :
  validate_request request_json packages_schema = None →
  tracks uuid4 (uuid4 (uuid_calls w)) update_status
    (put_packages clock uuid4 request_json w).2.
Proof.
  intros Hv. rewrite put_packages_valid by done.
  unfold tracks. simpl. rewrite !lookup_insert_eq.
  split; [by eexists|]. split; [done|]. exists (uuid_calls w). split; [lia|done].
Qed.

(** C1: after a valid submission, the polls on the job it created,
    however other requests are interleaved with them, show [NEW],
    then [PENDING], then [COMPLETED], one value per poll and in that
    order; every such snapshot carries a [last_updated], and with a
    clock that never runs backwards these stamps never go down. *)
Theorem status_sequence (clock : nat → Z) (uuid4 : nat → string)
    (request_json : value) (w : world) (rs : list request) :
  Inj (=) (=) uuid4 →
  monotone clock →
  validate_request request_json packages_schema = None →
  let submitted := put_packages clock uuid4 request_json w in
  let job_id := uuid4 (uuid_calls w) in
  let obs := polls job_id rs (run clock uuid4 rs submitted.2).1 in
  let stamps := omap snapshot_last_updated obs in
  submitted.1 = Response (VDict [("job_id", VStr job_id)]) 201 ∧
  map snapshot_status (take 3 obs)
    = map Some (take (length obs) ["NEW"; "PENDING"; "COMPLETED"]) ∧
  map snapshot_last_updated (take 3 obs) = map Some stamps ∧
  Sorted Z.le stamps.
Proof.
  intros Hinj Hmono Hv. cbv zeta.
  pose proof (put_packages_tracks clock uuid4 _ w Hv) as Htr.
  destruct (polls_statuses clock uuid4 Hinj _ rs _ _ Htr) as [Hst _].
  destruct (polls_stamps clock uuid4 Hinj Hmono _ rs _ _ Htr) as (Hts & _ & Hsorted).
  split; [by rewrite put_packages_valid|]. done.
Qed.

(** C3: once the three polls have shown [NEW], [PENDING] and
    [COMPLETED], every further poll on the job returns no snapshot:
    [next] raises [StopIteration], which leaves the handler uncaught. *)
Theorem over_polling_raises (clock : nat → Z) (uuid4 : nat → string)
    (request_json : value) (w : world) (rs : list request) :
  Inj (=) (=) uuid4 →
  validate_request request_json packages_schema = None →
  let submitted := put_packages clock uuid4 request_json w in
  let job_id := uuid4 (uuid_calls w) in
  let obs := polls job_id rs (run clock uuid4 rs submitted.2).1 in
  map snapshot_status (take 3 obs)
    = map Some (take (length obs) ["NEW"; "PENDING"; "COMPLETED"]) ∧
  Forall (λ o, o = Raised StopIteration ∧ snapshot o = None) (drop 3 obs).
Proof.
  intros Hinj Hv. cbv zeta.
  pose proof (put_packages_tracks clock uuid4 _ w Hv) as Htr.
  destruct (polls_statuses clock uuid4 Hinj _ rs _ _ Htr) as [Hst Hdrop].
  split; [done|].
  eapply Forall_impl; [exact Hdrop|]. by intros o ->.
Qed.

(** The sample oracles meet the assumptions made on the outside world. *)
Lemma sample_uuid4_inj : Inj (=) (=) Sample.uuid4.
Proof. unfold Sample.uuid4. apply _. Qed.

Lemma sample_clock_monotone : monotone Sample.clock.
Proof. intros i j Hij. unfold Sample.clock. lia. Qed.

Lemma status_sequence_witness :
  validate_request Sample.foo packages_schema = None ∧
  map snapshot_status
    (take 3 (polls "0" Sample.session
               (run Sample.clock Sample.uuid4 Sample.session
                  (put_packages Sample.clock Sample.uuid4 Sample.foo initial).2).1))
    = [Some "NEW"; Some "PENDING"; Some "COMPLETED"] ∧
  Sorted Z.le
    (omap snapshot_last_updated
       (polls "0" Sample.session
          (run Sample.clock Sample.uuid4 Sample.session
             (put_packages Sample.clock Sample.uuid4 Sample.foo initial).2).1)).
Proof.
  split; [reflexivity|].
  pose proof (status_sequence Sample.clock Sample.uuid4 Sample.foo initial
                Sample.session sample_uuid4_inj sample_clock_monotone eq_refl)
    as (_ & Hst & _ & Hsorted).
  split; [exact Hst | exact Hsorted].
Defined.

Lemma over_polling_raises_witness :
  validate_request Sample.foo packages_schema = None ∧
  drop 3 (polls "0" Sample.session
            (run Sample.clock Sample.uuid4 Sample.session
               (put_packages Sample.clock Sample.uuid4 Sample.foo initial).2).1)
    = [Raised StopIteration; Raised StopIteration] ∧
  Forall (λ o, o = Raised StopIteration ∧ snapshot o = None)
    (drop 3 (polls "0" Sample.session
               (run Sample.clock Sample.uuid4 Sample.session
                  (put_packages Sample.clock Sample.uuid4 Sample.foo initial).2).1)).
Proof.
  split; [reflexivity|]. split; [vm_compute; reflexivity|].
  exact (proj2 (over_polling_raises Sample.clock Sample.uuid4 Sample.foo initial
                  Sample.session sample_uuid4_inj eq_refl)).
Defined.

(** ** Job ids *)

Section Issued.

Variable clock : nat → Z.
Variable uuid4 : nat → string.

(** Only a submission announces a job id, and the id it announces
    is the one it drew. *)
Lemma issued_by_handle r w j :
  issued_job_id (handle clock uuid4 r w).1 = Some j →
  j = uuid4 (uuid_calls w) ∧
  uuid_calls (handle clock uuid4 r w).2 = S (uuid_calls w).
Proof.
  destruct r as [p|k|p]; simpl.
  - destruct (validate_request p packages_schema) as [e|] eqn:E.
    + by rewrite (put_packages_invalid _ _ _ e).
    + rewrite put_packages_valid by done. simpl. by intros [= <-].
  - unfold get_status.
    destruct (Dict.truthy (default [] (jobs w !! k))); [|done].
    simpl. by destruct (job_status w !! k) as [[|s g]|].
  - unfold auth_login. by destruct (validate_request p login_schema).
Qed.

Lemma run_calls rs : ∀ w,
  (uuid_calls w ≤ uuid_calls (run clock uuid4 rs w).2)%nat.
Proof.
  induction rs as [|r rs IH]; intros w; [done|].
  rewrite run_cons. simpl.
  pose proof (handle_calls clock uuid4 r w) as [Hu _].
  specialize (IH (handle clock uuid4 r w).2). lia.
Qed.

(** The ids issued in a run are draws of the uuid source made
    during that run. *)
Lemma issued_are_draws rs : ∀ w j,
  j ∈ issued (run clock uuid4 rs w).1 →
  ∃ c, (uuid_calls w ≤ c < uuid_calls (run clock uuid4 rs w).2)%nat ∧ j = uuid4 c.
Proof.
  induction rs as [|r rs IH]; intros w j Hj.
  { simpl in Hj. by apply elem_of_nil in Hj. }
  rewrite run_cons in Hj |- *. simpl in Hj |- *.
  pose proof (handle_calls clock uuid4 r w) as [Hu _].
  unfold issued in Hj. simpl in Hj.
  destruct (issued_job_id (handle clock uuid4 r w).1) as [j0|] eqn:E.
  - apply issued_by_handle in E as [-> Hs].
    apply elem_of_cons in Hj as [->|Hj].
    + exists (uuid_calls w). split; [|done].
      pose proof (run_calls rs (handle clock uuid4 r w).2). lia.
    + destruct (IH _ _ Hj) as (c & Hc & ->). exists c. split; [lia|done].
  - destruct (IH _ _ Hj) as (c & Hc & ->). exists c. split; [lia|done].
Qed.

End Issued.

(** C2: a valid submission answers 201 with a job id; when the uuid
    source never repeats itself, that id differs from every id issued
    earlier in the life of the server, and a poll on it right away
    answers 200 (showing [NEW]), not 404. *)
Theorem submit_fresh_job_id (clock : nat → Z) (uuid4 : nat → string)
    (rs : list request) (request_json : value) :
  Inj (=) (=) uuid4 →
  validate_request request_json packages_schema = None →
  let before := run clock uuid4 rs initial in
  let submitted := put_packages clock uuid4 request_json before.2 in
  ∃ job_id,
    submitted.1 = Response (VDict [("job_id", VStr job_id)]) 201 ∧
    (job_id ∉ issued before.1) ∧
    (∃ body, (get_status clock job_id submitted.2).1 = Response body 200) ∧
    snapshot_status (get_status clock job_id submitted.2).1 = Some "NEW".
Proof.
  intros Hinj Hv. cbv zeta.
  set (w := (run clock uuid4 rs initial).2).
  exists (uuid4 (uuid_calls w)).
  split; [by rewrite put_packages_valid|].
  split.
  { intros Hin. apply issued_are_draws in Hin as (c & Hc & Heq).
    apply Hinj in Heq. fold w in Hc. lia. }
  rewrite put_packages_valid by done.
  erewrite get_status_next; simpl; rewrite ?lookup_insert_eq; try done.
  split; [by eexists|]. done.
Qed.

Lemma submit_fresh_job_id_witness :
  validate_request Sample.foo packages_schema = None ∧
  issued (run Sample.clock Sample.uuid4 Sample.session initial).1 = ["0"] ∧
  ∃ job_id,
    (put_packages Sample.clock Sample.uuid4 Sample.foo
       (run Sample.clock Sample.uuid4 Sample.session initial).2).1
      = Response (VDict [("job_id", VStr job_id)]) 201 ∧
    job_id ∉ issued (run Sample.clock Sample.uuid4 Sample.session initial).1.
Proof.
  split; [reflexivity|]. split; [vm_compute; reflexivity|].
  destruct (submit_fresh_job_id Sample.clock Sample.uuid4 Sample.session Sample.foo
              sample_uuid4_inj eq_refl) as (job_id & Hput & Hfresh & _).
  exists job_id. split; [exact Hput | exact Hfresh].
Defined.

(** C5: a submission that fails validation raises before anything
    is drawn or stored: the state after it is the state before it,
    job store and cursors included, so every poll answers as it
    would have answered before. *)
Theorem failed_submit_changes_nothing (clock : nat → Z) (uuid4 : nat → string)
    (request_json : value) (e : exn) (w : world) :
  validate_request request_json packages_schema = Some e →
  let submitted := put_packages clock uuid4 request_json w in
  submitted.1 = Raised e ∧
  submitted.2 = w ∧
  jobs submitted.2 = jobs w ∧
  job_status submitted.2 = job_status w ∧
  ∀ job_id, get_status clock job_id submitted.2 = get_status clock job_id w.
Proof.
  intros Hv. cbv zeta. by rewrite (put_packages_invalid _ _ _ e).
Qed.

Lemma failed_submit_changes_nothing_witness :
  (put_packages Sample.clock Sample.uuid4 Sample.foo_name_only initial).2 = initial.
Proof.
  refine (proj1 (proj2 (failed_submit_changes_nothing Sample.clock Sample.uuid4
                          Sample.foo_name_only _ initial _))).
  vm_compute. reflexivity.
Defined.

(** C7: a poll on an id that is not a key of [jobs] answers 404 with
    the empty dict as its body; it raises nothing and leaves the
    state as it was. *)
Theorem unknown_job_is_404 (clock : nat → Z) (job_id : string) (w : world) :
  jobs w !! job_id = None →
  get_status clock job_id w = (Response (VDict []) 404, w).
Proof. apply get_status_unknown. Qed.

Lemma unknown_job_is_404_witness :
  get_status Sample.clock "nonexistent-id" initial = (Response (VDict []) 404, initial).
Proof. apply (unknown_job_is_404 Sample.clock "nonexistent-id" initial). reflexivity. Defined.

(** ** What a poll changes *)

(** C8: a poll that answers 200 on [job_id] rewrites no field of the
    stored record but [status] and [last_updated] (so [id],
    [user_id], [started_at] and the whole [packages] tree are as
    before, and a record that had both fields keeps its keys in
    their order), returns the record it stored, and leaves the
    record and the cursor of every other job as they were. *)
Theorem poll_changes_only_its_job (clock : nat → Z) (job_id : string)
    (w : world) (body : value) :
  (get_status clock job_id w).1 = Response body 200 →
  let w' := (get_status clock job_id w).2 in
  (∃ job job',
      jobs w !! job_id = Some job ∧ jobs w' !! job_id = Some job' ∧
      body = VDict job' ∧
      (∀ k, k ≠ "status" → k ≠ "last_updated" → Dict.get k job' = Dict.get k job) ∧
      Dict.get "id" job' = Dict.get "id" job ∧
      Dict.get "user_id" job' = Dict.get "user_id" job ∧
      Dict.get "started_at" job' = Dict.get "started_at" job ∧
      Dict.get "packages" job' = Dict.get "packages" job ∧
      (Dict.mem "status" job = true → Dict.mem "last_updated" job = true →
       Dict.keys job' = Dict.keys job)) ∧
  (∀ other, other ≠ job_id →
      jobs w' !! other = jobs w !! other ∧
      job_status w' !! other = job_status w !! other).
Proof.
  intros Hok. cbv zeta. split; [|intros other; apply get_status_frame].
  destruct (jobs w !! job_id) as [job|] eqn:Hjob;
    [|by rewrite get_status_unknown in Hok].
  destruct (Dict.truthy job) eqn:Ht;
    [|unfold get_status in Hok; rewrite Hjob in Hok; simpl in Hok;
      by rewrite Ht in Hok].
  destruct (job_status w !! job_id) as [[|s g]|] eqn:Hcur.
  - by rewrite (get_status_exhausted _ _ job) in Hok.
  - rewrite (get_status_next _ _ job s g) in Hok |- * by done.
    simpl in Hok |- *. injection Hok as <-.
    rewrite lookup_insert_eq.
    assert (∀ k, k ≠ "status" → k ≠ "last_updated" →
              Dict.get k (Dict.set "status" (VStr s)
                 (Dict.set "last_updated" (VInt (clock (time_calls w))) job))
              = Dict.get k job) as Hget.
    { intros k H1 H2. by rewrite !get_set_ne. }
    eexists _, _. split; [done|]. split; [done|]. split; [done|].
    split; [done|]. repeat split; try by apply Hget.
    intros Hs Hl. rewrite keys_set, keys_set; [done|done|].
    unfold Dict.mem in Hs |- *. by rewrite get_set_ne.
  - unfold get_status in Hok. rewrite Hjob in Hok. simpl in Hok.
    by rewrite Ht, Hcur in Hok.
Qed.

Lemma poll_changes_only_its_job_witness :
  ∃ body,
    (get_status Sample.clock "0"
       (run Sample.clock Sample.uuid4 Sample.two_jobs initial).2).1
      = Response body 200 ∧
    ∀ other, other ≠ "0" →
      jobs (get_status Sample.clock "0"
              (run Sample.clock Sample.uuid4 Sample.two_jobs initial).2).2 !! other
      = jobs (run Sample.clock Sample.uuid4 Sample.two_jobs initial).2 !! other.
Proof.
  eexists. split; [vm_compute; reflexivity|].
  intros other Hne.
  refine (proj1 (proj2 (poll_changes_only_its_job Sample.clock "0"
            (run Sample.clock Sample.uuid4 Sample.two_jobs initial).2 _ _) other Hne)).
  vm_compute. reflexivity.
Defined.

(** ** What a submission stores *)

(** C10: the record stored by a valid submission owes nothing to the
    payload.  Whatever was submitted, the job is [build_job]'s
    literal: the same [id] and [user_id], the displayed status
    [PENDING], and one npm package [foo] 1.0.0 whose dependencies are
    [bar] and [baz]; it sits under the drawn job id and is stamped
    with the reading of the clock.  Two valid payloads submitted in
    the same state give the same answer and the same state. *)
Theorem job_content_is_fixed (clock : nat → Z) (uuid4 : nat → string)
    (request_json : value) (w : world) :
  validate_request request_json packages_schema = None →
  let w' := (put_packages clock uuid4 request_json w).2 in
  let started_at := clock (time_calls w) in
  (∃ job top,
      jobs w' !! uuid4 (uuid_calls w) = Some job ∧
      job = job_record started_at ∧
      Dict.get "id" job = Some (VStr "59482a54-423b-448d-8325-f171c9dc336b") ∧
      Dict.get "user_id" job = Some (VStr "86bb664a-5331-489b-8901-f052f155ec79") ∧
      Dict.get "status" job = Some (VStr "PENDING") ∧
      Dict.get "started_at" job = Some (VInt started_at) ∧
      Dict.get "last_updated" job = Some (VInt started_at) ∧
      Dict.get "packages" job = Some (VList [top]) ∧
      package_id top = Some ("npm", "foo", "1.0.0") ∧
      map package_id (dependencies top)
        = [Some ("npm", "bar", "2.3.4"); Some ("npm", "baz", "9.8.7")]) ∧
  (∀ other_json,
      validate_request other_json packages_schema = None →
      put_packages clock uuid4 other_json w = put_packages clock uuid4 request_json w).
Proof.
  intros Hv. cbv zeta. split.
  - rewrite put_packages_valid by done. simpl. rewrite lookup_insert_eq.
    eexists _, _. split; [done|]. repeat split.
  - intros other_json Hv'. by rewrite !put_packages_valid.
Qed.

Lemma job_content_is_fixed_witness :
  validate_request Sample.foo packages_schema = None ∧
  validate_request (VDict [("packages", VList [])]) packages_schema = None ∧
  put_packages Sample.clock Sample.uuid4 (VDict [("packages", VList [])]) initial
    = put_packages Sample.clock Sample.uuid4 Sample.foo initial.
Proof.
  split; [reflexivity|]. split; [reflexivity|].
  exact (proj2 (job_content_is_fixed Sample.clock Sample.uuid4 Sample.foo initial eq_refl)
           (VDict [("packages", VList [])]) eq_refl).
Defined.

(** ** The [id] field *)

Lemma fixed_ids_initial : fixed_ids initial.
Proof. intros job_id job H. simpl in H. by rewrite lookup_empty in H. Qed.

(** Serving a request keeps the [id] of every stored record, and a
    snapshot returned by a poll carries it. *)
Lemma fixed_ids_handle clock uuid4 r w :
  fixed_ids w →
  fixed_ids (handle clock uuid4 r w).2 ∧
  ∀ job_id d, r = GET_status job_id →
    snapshot (handle clock uuid4 r w).1 = Some d →
    Dict.get "id" d = Some (VStr "59482a54-423b-448d-8325-f171c9dc336b").
Proof.
  intros Hfix. destruct r as [p|j|p]; simpl.
  - split; [|done].
    destruct (validate_request p packages_schema) as [e|] eqn:E.
    + by rewrite (put_packages_invalid _ _ _ e).
    + rewrite put_packages_valid by done. intros k job. simpl.
      destruct (decide (uuid4 (uuid_calls w) = k)) as [->|Hne].
      * rewrite lookup_insert_eq. by intros [= <-].
      * rewrite lookup_insert_ne by done. apply Hfix.
  - assert (∀ job (t : Z), jobs w !! j = Some job →
              fixed_ids {| jobs := <[j := Dict.set "last_updated" (VInt t) job]> (jobs w);
                           job_status := job_status w;
                           time_calls := S (time_calls w);
                           uuid_calls := uuid_calls w |}) as Hstamp.
    { intros job t Hjob k job'. simpl.
      destruct (decide (j = k)) as [->|Hne].
      - rewrite lookup_insert_eq. intros [= <-].
        rewrite get_set_ne by done. by apply (Hfix k).
      - rewrite lookup_insert_ne by done. apply Hfix. }
    destruct (jobs w !! j) as [job|] eqn:Hjob;
      [|by rewrite get_status_unknown].
    destruct (Dict.truthy job) eqn:Ht;
      [|unfold get_status; rewrite Hjob; simpl; by rewrite Ht].
    destruct (job_status w !! j) as [[|s g]|] eqn:Hcur.
    + rewrite (get_status_exhausted _ _ job) by done. simpl.
      split; [by apply Hstamp|done].
    + rewrite (get_status_next _ _ job s g) by done. simpl.
      assert (Dict.get "id"
                (Dict.set "status" (VStr s)
                   (Dict.set "last_updated" (VInt (clock (time_calls w))) job))
              = Some (VStr "59482a54-423b-448d-8325-f171c9dc336b")) as Hid.
      { rewrite !get_set_ne by done. by apply (Hfix j). }
      split; [|by intros _ d _ [= <-]].
      intros k job'. simpl.
      destruct (decide (j = k)) as [->|Hne].
      * rewrite lookup_insert_eq. by intros [= <-].
      * rewrite lookup_insert_ne by done. apply Hfix.
    + unfold get_status. rewrite Hjob. simpl. rewrite Ht, Hcur. simpl.
      split; [by apply Hstamp|done].
  - rewrite auth_login_world. done.
Qed.

Lemma polls_fixed_ids clock uuid4 job_id rs : ∀ w,
  fixed_ids w →
  Forall (λ o, ∀ d, snapshot o = Some d →
            Dict.get "id" d = Some (VStr "59482a54-423b-448d-8325-f171c9dc336b"))
    (polls job_id rs (run clock uuid4 rs w).1).
Proof.
  induction rs as [|r rs IH]; intros w Hfix; [constructor|].
  rewrite polls_cons. cbv zeta.
  destruct (fixed_ids_handle clock uuid4 r w Hfix) as [Hfix' Hsnap].
  destruct (is_poll job_id r) eqn:Hr; [|by apply IH].
  apply is_poll_true in Hr as ->.
  constructor; [|by apply IH].
  intros d Hd. by apply (Hsnap job_id).
Qed.

(** C6, as the code has it: the [id] field of a job is the literal
    that [build_job] writes, the same for every job.  Every snapshot
    returned by a poll, on whatever job and at whatever moment of a
    run, carries that literal: the [id] of a job never changes, and
    the [id]s of two jobs never differ. *)
Theorem id_is_a_fixed_literal (clock : nat → Z) (uuid4 : nat → string)
    (rs : list request) (job_id : string) :
  Forall (λ o, ∀ d, snapshot o = Some d →
            Dict.get "id" d = Some (VStr "59482a54-423b-448d-8325-f171c9dc336b"))
    (polls job_id rs (run clock uuid4 rs initial).1).
Proof. apply polls_fixed_ids, fixed_ids_initial. Qed.

(** C6 fails as stated: two submissions create two jobs under two
    job ids, and the snapshots of the two jobs carry the same [id]. *)
Lemma ids_are_not_unique :
  issued (run Sample.clock Sample.uuid4 Sample.two_jobs initial).1 = ["0"; "1"] ∧
  map (snapshot_field "id")
      (polls "0" Sample.two_jobs (run Sample.clock Sample.uuid4 Sample.two_jobs initial).1)
    = [Some (VStr "59482a54-423b-448d-8325-f171c9dc336b")] ∧
  map (snapshot_field "id")
      (polls "1" Sample.two_jobs (run Sample.clock Sample.uuid4 Sample.two_jobs initial).1)
    = [Some (VStr "59482a54-423b-448d-8325-f171c9dc336b")].
Proof. vm_compute. repeat split. Qed.

(** ** Validation *)

Section Validators.

Import Voluptuous.

(** A sequence is valid when nothing was collected before it and
    each of its items is valid. *)
Lemma validate_sequence_valid (validate : validator) (ok : value → bool) :
  (∀ path v, validate path v = [] ↔ ok v = true) →
  ∀ data path i errors,
    validate_sequence validate path i data errors = [] ↔
    errors = [] ∧ forallb ok data = true.
Proof.
  intros Hok. induction data as [|v data IH]; intros path i errors; simpl.
  { split; [by intros ->|by intros [-> _]]. }
  destruct (validate (path ++ [PIdx i]) v) as [|e es] eqn:E.
  - apply Hok in E. rewrite E, IH. done.
  - assert (ok v = false) as ->.
    { destruct (ok v) eqn:Hv; [|done].
      pose proof (proj2 (Hok (path ++ [PIdx i]) v) Hv). congruence. }
    simpl. split; [|by intros [_ ?]].
    destruct (_ <? _)%nat; [done|].
    intros Hnil. apply IH in Hnil as [Happ _]. by destruct errors.
Qed.

Lemma validate_entries_errors compiled path data : ∀ errors required_keys,
  (validate_entries compiled path data errors required_keys).1 = [] ↔
  errors = [] ∧ Forall (entry_valid compiled path) data.
Proof.
  induction data as [|[k v] data IH]; intros errors req; simpl.
  { split; [by intros ->|by intros [-> _]]. }
  rewrite Forall_cons. unfold entry_valid at 1. simpl.
  destruct (candidate k compiled) as [[skey cvalue]|].
  - rewrite IH. split.
    + intros [Happ Hall]. apply app_eq_nil in Happ as [-> Hv]. done.
    + intros (-> & Hv & Hall). by rewrite Hv.
  - rewrite IH. split; [|by intros (_ & [] & _)].
    intros [Happ _]. by destruct errors.
Qed.

Lemma candidate_key key compiled skey cvalue :
  candidate key compiled = Some (skey, cvalue) → marker_key skey = key.
Proof.
  induction compiled as [|[m c] compiled IH]; simpl; [done|].
  destruct (String.eqb (marker_key m) key) eqn:E; [|done].
  intros [= <- _]. by apply String.eqb_eq.
Qed.

(** When every key of the data has a schema entry, the required
    keys still missing at the end are those the data does not hold. *)
Lemma validate_entries_required compiled path data : ∀ errors required_keys,
  Forall (entry_valid compiled path) data →
  (validate_entries compiled path data errors required_keys).2 =
    List.filter (λ m, negb (Dict.mem (marker_key m) data)) required_keys.
Proof.
  induction data as [|[k v] data IH]; intros errors req Hall; simpl.
  { unfold Dict.mem. simpl. induction req as [|m req IHreq]; simpl; congruence. }
  apply Forall_cons in Hall as [Hkv Hall]. unfold entry_valid in Hkv. simpl in Hkv.
  destruct (candidate k compiled) as [[skey cvalue]|] eqn:E; [|done].
  apply candidate_key in E. rewrite IH by done.
  unfold discard. rewrite E. clear.
  induction req as [|m req IHreq]; simpl; [done|].
  rewrite mem_cons, (String.eqb_sym k).
  destruct (String.eqb (marker_key m) k); simpl; [done|].
  destruct (Dict.mem (marker_key m) data); simpl; by rewrite IHreq.
Qed.

Lemma validate_mapping_valid compiled path data :
  validate_mapping compiled path data = [] ↔
  Forall (entry_valid compiled path) data ∧
  forallb (λ m, Dict.mem (marker_key m) data)
          (List.filter is_required (map fst compiled)) = true.
Proof.
  unfold validate_mapping.
  pose proof (validate_entries_errors compiled path data []
                (List.filter is_required (map fst compiled))) as Herr.
  pose proof (validate_entries_required compiled path data []
                (List.filter is_required (map fst compiled))) as Hreq.
  destruct (validate_entries _ _ _ _ _) as [errors required_keys]. simpl in *.
  assert (∀ req : list marker,
            List.filter (λ m, negb (Dict.mem (marker_key m) data)) req = [] ↔
            forallb (λ m, Dict.mem (marker_key m) data) req = true) as Hfilter.
  { induction req as [|m req IH]; simpl; [done|].
    destruct (Dict.mem (marker_key m) data); simpl; [done|]. done. }
  split.
  - intros Happ. apply app_eq_nil in Happ as [-> Hmap].
    apply map_eq_nil in Hmap as ->.
    assert (Forall (entry_valid compiled path) data) as Hall by by apply Herr.
    split; [done|]. apply Hfilter. symmetry. by apply Hreq.
  - intros [Hall Hpresent].
    rewrite (proj2 Herr) by done.
    rewrite (Hreq Hall), (proj2 (Hfilter _) Hpresent). done.
Qed.

End Validators.

Section Submission.

Import Voluptuous.

Lemma str_valid path v : compile SStr path v = [] ↔ is_str v = true.
Proof. by destruct v. Qed.

Lemma Forall_forallb {A} (P : A → Prop) (f : A → bool) (l : list A) :
  (∀ x, P x ↔ f x = true) → Forall P l ↔ forallb f l = true.
Proof.
  intros Hf. induction l as [|x l IH]; simpl.
  { split; [done|constructor]. }
  rewrite Forall_cons, andb_true_iff, IH, Hf. done.
Qed.

(** The record schema accepts the dicts that hold [name], [version]
    and [type] with string values, and nothing else. *)
Lemma record_valid path v :
  compile (SDict [ (Required "name", SStr);
                   (Required "version", SStr);
                   (Required "type", SStr) ]) path v = []
  ↔ exact_record v = true.
Proof.
  destruct v as [| | | | |items|d]; try done.
  cbn [compile]. rewrite validate_mapping_valid.
  cbn [map fst List.filter is_required forallb marker_key exact_record].
  rewrite andb_true_r, !andb_true_iff.
  rewrite (Forall_forallb _ (λ kv, record_key kv.1 && is_str kv.2)); [tauto|].
  intros [k v]. unfold entry_valid, record_key. cbn [candidate marker_key fst snd].
  rewrite !(String.eqb_sym k).
  destruct (String.eqb "name" k); [apply str_valid|].
  destruct (String.eqb "version" k); [apply str_valid|].
  destruct (String.eqb "type" k); [apply str_valid|].
  done.
Qed.

(** The list schema accepts the lists of such records. *)
Lemma record_list_valid path v :
  compile (SList (SDict [ (Required "name", SStr);
                          (Required "version", SStr);
                          (Required "type", SStr) ])) path v = []
  ↔ record_list v = true.
Proof.
  destruct v as [| | | | |items|d]; try done.
  cbn [compile record_list].
  rewrite (validate_sequence_valid _ exact_record).
  - tauto.
  - apply record_valid.
Qed.

(** What [packages_schema] accepts: a dict in which every key is
    [packages] and holds a list of records. *)
Lemma packages_schema_valid request_json :
  validate_request request_json packages_schema = None ↔
  ∃ d, request_json = VDict d ∧
       forallb (λ kv, String.eqb kv.1 "packages" && record_list kv.2) d = true.
Proof.
  unfold validate_request, call.
  assert (∀ errors : list invalid,
            match errors with [] => None | e :: es => Some (MultipleInvalid (e :: es)) end
            = None ↔ errors = []) as Hcall by (by intros []).
  rewrite Hcall.
  destruct request_json as [| | | | |items|d];
    try (split; [done|by intros (d & ? & _)]).
  unfold packages_schema. cbn [compile]. rewrite validate_mapping_valid.
  cbn [map fst List.filter is_required forallb].
  rewrite (Forall_forallb _ (λ kv, String.eqb kv.1 "packages" && record_list kv.2)).
  - split; [intros [H _]; by exists d|]. by intros (d' & [= <-] & H).
  - intros [k v]. unfold entry_valid. cbn [candidate marker_key fst snd].
    rewrite (String.eqb_sym k).
    destruct (String.eqb "packages" k); [apply record_list_valid|done].
Qed.

(** Validation either passes or raises [MultipleInvalid]. *)
Lemma validate_request_raises request_json s e :
  validate_request request_json s = Some e → ∃ errors, e = MultipleInvalid errors.
Proof.
  unfold validate_request, call.
  destruct (compile s [] request_json); [done|]. intros [= <-]. by eexists.
Qed.

End Submission.

Lemma accepted_iff_contract request_json :
  lacks_packages request_json = false →
  validate_request request_json packages_schema = None ↔
  exact_contract request_json = true.
Proof.
  intros Hkey. rewrite packages_schema_valid.
  destruct request_json as [| | | | |items|d];
    try (split; [by intros (d & ? & _)|done]).
  simpl in Hkey |- *. apply negb_false_iff in Hkey. rewrite Hkey, andb_true_r.
  split; [by intros (d' & [= <-] & H)|intros H; by exists d].
Qed.

Lemma get_forallb (f : string * value → bool) k v (d : pydict) :
  Dict.get k d = Some v → forallb f d = true → f (k, v) = true.
Proof.
  induction d as [|[k' v'] d IH]; simpl; [done|].
  intros Hget [Hhd Htl]%andb_true_iff.
  destruct (String.eqb k' k) eqn:E; [|by apply IH].
  apply String.eqb_eq in E as ->. by injection Hget as ->.
Qed.

(** A record that lacks one of the three fields breaks the contract
    of the payload that lists it. *)
Lemma missing_field_breaks_contract request_json d items record k :
  request_json = VDict d →
  Dict.get "packages" d = Some (VList items) →
  VDict record ∈ items →
  k ∈ ["name"; "version"; "type"] →
  Dict.mem k record = false →
  exact_contract request_json = false.
Proof.
  intros -> Hget Hin Hk Hmem.
  apply not_true_is_false. intros Hc. simpl in Hc.
  apply andb_true_iff in Hc as [Hall _].
  pose proof (get_forallb _ _ _ _ Hget Hall) as Hlist. simpl in Hlist.
  rewrite forallb_forall in Hlist.
  apply list_elem_of_In, Hlist in Hin. simpl in Hin.
  apply andb_true_iff in Hin as [[[_ Hn]%andb_true_iff Hv]%andb_true_iff Ht].
  repeat (apply elem_of_cons in Hk as [->|Hk]; [congruence|]).
  by apply elem_of_nil in Hk.
Qed.

(** C4, as the code has it: for a payload that is not a mapping
    without [packages], the submission raises voluptuous's
    [MultipleInvalid] (and leaves the state alone) exactly when the
    payload is not a mapping whose one key [packages] holds a list of
    records, each with the keys [name], [version] and [type] and no
    other, each holding a string, which may be empty; otherwise it
    answers 201 with a job id.  In particular a payload that lists a
    record without one of the three fields is rejected. *)
Theorem submit_rejects_iff (clock : nat → Z) (uuid4 : nat → string)
    (request_json : value) (w : world) :
  lacks_packages request_json = false →
  ((∃ errors, put_packages clock uuid4 request_json w
                = (Raised (MultipleInvalid errors), w))
     ↔ exact_contract request_json = false) ∧
  ((∃ job_id, (put_packages clock uuid4 request_json w).1
                = Response (VDict [("job_id", VStr job_id)]) 201)
     ↔ exact_contract request_json = true) ∧
  (∀ d items record k,
      request_json = VDict d →
      Dict.get "packages" d = Some (VList items) →
      VDict record ∈ items →
      k ∈ ["name"; "version"; "type"] →
      Dict.mem k record = false →
      exact_contract request_json = false).
Proof.
  intros Hkey.
  enough (((∃ errors, put_packages clock uuid4 request_json w
                        = (Raised (MultipleInvalid errors), w))
             ↔ exact_contract request_json = false) ∧
          ((∃ job_id, (put_packages clock uuid4 request_json w).1
                        = Response (VDict [("job_id", VStr job_id)]) 201)
             ↔ exact_contract request_json = true)) as [Hraise Hanswer].
  { split; [done|]. split; [done|]. apply missing_field_breaks_contract. }
  pose proof (accepted_iff_contract _ Hkey) as Hiff.
  destruct (validate_request request_json packages_schema) as [e|] eqn:Hv.
  - rewrite (put_packages_invalid _ _ _ e) by done.
    destruct (validate_request_raises _ _ _ Hv) as [errors ->].
    destruct (exact_contract request_json).
    + by destruct Hiff as [_ Hiff]; specialize (Hiff eq_refl).
    + split; [split; [done|by exists errors]|].
      split; [by intros [job_id H]|done].
  - rewrite put_packages_valid by done. rewrite (proj1 Hiff eq_refl).
    split; [split; [by intros [errors H]|done]|].
    split; [done|]. intros _. by eexists.
Qed.

Lemma submit_rejects_iff_witness :
  lacks_packages Sample.foo_name_only = false ∧
  exact_contract Sample.foo_name_only = false ∧
  ∃ errors,
    put_packages Sample.clock Sample.uuid4 Sample.foo_name_only initial
      = (Raised (MultipleInvalid errors), initial).
Proof.
  split; [reflexivity|]. split; [reflexivity|].
  apply (submit_rejects_iff Sample.clock Sample.uuid4 Sample.foo_name_only initial);
    reflexivity.
Defined.

(** C4 fails as stated: a record whose [name] is the empty string
    does not meet the stated contract, and its submission is
    accepted. *)
Lemma empty_name_is_accepted :
  stated_contract Sample.unnamed = false ∧
  (put_packages Sample.clock Sample.uuid4 Sample.unnamed initial).1
    = Response (VDict [("job_id", VStr "0")]) 201.
Proof. split; reflexivity. Qed.

(** The scenarios of the specification. *)
Example scenario_lifecycle :
  (run Sample.clock Sample.uuid4
     [PUT_packages Sample.foo; GET_status "0"; GET_status "0"; GET_status "0"]
     initial).1
  = [ Response (VDict [("job_id", VStr "0")]) 201;
      Response (VDict (Dict.set "status" (VStr "NEW")
                         (Dict.set "last_updated" (VInt 1600000001)
                            (job_record 1600000000)))) 200;
      Response (VDict (Dict.set "status" (VStr "PENDING")
                         (Dict.set "last_updated" (VInt 1600000002)
                            (job_record 1600000000)))) 200;
      Response (VDict (Dict.set "status" (VStr "COMPLETED")
                         (Dict.set "last_updated" (VInt 1600000003)
                            (job_record 1600000000)))) 200 ].
Proof. reflexivity. Qed.

Example scenario_missing_fields :
  put_packages Sample.clock Sample.uuid4 Sample.foo_name_only initial
  = (Raised (MultipleInvalid
       [ Invalid "required key not provided" [PKey "packages"; PIdx 0; PKey "version"];
         Invalid "required key not provided" [PKey "packages"; PIdx 0; PKey "type"] ]),
     initial).
Proof. reflexivity. Qed.

Example scenario_nonexistent :
  (get_status Sample.clock "nonexistent-id" initial).1 = Response (VDict []) 404.
Proof. reflexivity. Qed.

(** ** States the server can reach *)

(** [build_job] stores the cursor before [put_packages] stores the
    record, and nothing is ever deleted: a stored job has a cursor,
    so [get_status] never calls [next] on the empty dict. *)
Lemma cursors_cover_handle clock uuid4 r w :
  cursors_cover w →
  cursors_cover (handle clock uuid4 r w).2 ∧
  (handle clock uuid4 r w).1 ≠ Raised TypeError.
Proof.
  intros Hcov. destruct r as [p|j|p]; simpl.
  - destruct (validate_request p packages_schema) as [e|] eqn:E.
    + rewrite (put_packages_invalid _ _ _ e) by done. split; [done|].
      simpl. by destruct (validate_request_raises _ _ _ E) as [errors ->].
    + rewrite put_packages_valid by done. split; [|done].
      intros k. simpl.
      destruct (decide (uuid4 (uuid_calls w) = k)) as [->|Hne].
      * by rewrite !lookup_insert_eq.
      * rewrite !lookup_insert_ne by done. apply Hcov.
  - destruct (jobs w !! j) as [job|] eqn:Hjob;
      [|by rewrite get_status_unknown].
    destruct (Dict.truthy job) eqn:Ht;
      [|unfold get_status; rewrite Hjob; simpl; by rewrite Ht].
    destruct (Hcov j) as [g Hcur]; [by eexists|].
    assert (∀ job' g', cursors_cover
              {| jobs := <[j := job']> (jobs w); job_status := <[j := g']> (job_status w);
                 time_calls := S (time_calls w); uuid_calls := uuid_calls w |}) as Hkeep.
    { intros job' g' k. simpl.
      destruct (decide (j = k)) as [->|Hne].
      - by rewrite !lookup_insert_eq.
      - rewrite !lookup_insert_ne by done. apply Hcov. }
    destruct g as [|s g].
    + rewrite (get_status_exhausted _ _ job) by done. split; [|done].
      rewrite <- (insert_id (job_status w) j []) by done. apply Hkeep.
    + rewrite (get_status_next _ _ job s g) by done. split; [|done]. apply Hkeep.
  - rewrite auth_login_world. split; [done|].
    unfold auth_login.
    destruct (validate_request p login_schema) as [e|] eqn:E; [|done].
    simpl. by destruct (validate_request_raises _ _ _ E) as [errors ->].
Qed.

Lemma run_never_TypeError clock uuid4 rs : ∀ w,
  cursors_cover w →
  Forall (λ o, o ≠ Raised TypeError) (run clock uuid4 rs w).1.
Proof.
  induction rs as [|r rs IH]; intros w Hcov; [constructor|].
  rewrite run_cons. simpl.
  destruct (cursors_cover_handle clock uuid4 r w Hcov) as [Hcov' Ho].
  constructor; [done|by apply IH].
Qed.

(** * Further properties of the server *)

Set Warnings "-clear-no-such-hyp".

(** ** The store over a run *)

Lemma cursors_cover_initial : cursors_cover initial.
Proof. intros j [job H]. simpl in H. by rewrite lookup_empty in H. Qed.

(** X1: in no run from the empty store does a request raise
    [TypeError]: [get_status] always finds a generator to call
    [next] on. *)
Theorem no_TypeError_from_initial (clock : nat → Z) (uuid4 : nat → string)
    (rs : list request) :
  Forall (λ o, o ≠ Raised TypeError) (run clock uuid4 rs initial).1.
Proof. apply run_never_TypeError, cursors_cover_initial. Qed.

(** The id a response announces, as a set. *)
Lemma get_status_issues_nothing clock job_id w :
  issued_job_id (get_status clock job_id w).1 = None.
Proof.
  unfold get_status.
  destruct (Dict.truthy (default [] (jobs w !! job_id))); [|done].
  simpl. by destruct (job_status w !! job_id) as [[|s g]|].
Qed.

Lemma get_status_dom clock job_id w :
  dom (jobs (get_status clock job_id w).2) =@{gset string} dom (jobs w) ∧
  dom (job_status (get_status clock job_id w).2) =@{gset string} dom (job_status w).
Proof.
  unfold get_status.
  destruct (jobs w !! job_id) as [job|] eqn:Hjob; simpl; [|done].
  destruct (Dict.truthy job); [|done]. simpl.
  assert (∀ job' : pydict, dom (<[job_id := job']> (jobs w)) =@{gset string} dom (jobs w))
    as Hjobs.
  { intros job'. apply dom_insert_lookup_L. by eexists. }
  destruct (job_status w !! job_id) as [[|s g]|] eqn:Hcur; simpl;
    rewrite ?insert_insert_eq, ?Hjobs; try done.
  split; [done|]. apply dom_insert_lookup_L. by eexists.
Qed.

(** Serving a request adds the id it announces, if any, to the keys
    of both dicts, and removes none. *)
Lemma handle_dom clock uuid4 r w :
  let added : gset string :=
    from_option singleton ∅ (issued_job_id (handle clock uuid4 r w).1) in
  dom (jobs (handle clock uuid4 r w).2) = dom (jobs w) ∪ added ∧
  dom (job_status (handle clock uuid4 r w).2) = dom (job_status w) ∪ added.
Proof.
  destruct r as [p|j|p]; simpl.
  - destruct (validate_request p packages_schema) as [e|] eqn:E.
    + rewrite (put_packages_invalid _ _ _ e) by done. simpl. set_solver.
    + rewrite put_packages_valid by done. simpl.
      rewrite !dom_insert_L. set_solver.
  - rewrite get_status_issues_nothing. simpl.
    destruct (get_status_dom clock j w) as [-> ->]. set_solver.
  - rewrite auth_login_world.
    assert (issued_job_id (auth_login p w).1 = None) as ->.
    { unfold auth_login. by destruct (validate_request p login_schema). }
    simpl. set_solver.
Qed.

Lemma run_dom clock uuid4 rs : ∀ w,
  dom (jobs (run clock uuid4 rs w).2)
    = dom (jobs w) ∪ list_to_set (issued (run clock uuid4 rs w).1) ∧
  dom (job_status (run clock uuid4 rs w).2)
    = dom (job_status w) ∪ list_to_set (issued (run clock uuid4 rs w).1).
Proof.
  induction rs as [|r rs IH]; intros w.
  { simpl. set_solver. }
  rewrite run_cons. simpl.
  destruct (IH (handle clock uuid4 r w).2) as [-> ->].
  destruct (handle_dom clock uuid4 r w) as [-> ->].
  unfold issued. simpl.
  destruct (issued_job_id (handle clock uuid4 r w).1) as [j|]; simpl; set_solver.
Qed.

Lemma store_holds_the_issued_ids_aux clock uuid4 rs :
  dom (jobs (run clock uuid4 rs initial).2)
    =@{gset string} list_to_set (issued (run clock uuid4 rs initial).1).
Proof.
  destruct (run_dom clock uuid4 rs initial) as [-> _]. simpl.
  rewrite dom_empty_L. set_solver.
Qed.

(** X2: after any run from the empty store, the keys of [jobs] and the
    keys of [job_status] are exactly the job ids that the 201
    responses of the run announced: a job is stored when it is
    announced and never removed. *)
Theorem store_holds_the_issued_ids (clock : nat → Z) (uuid4 : nat → string)
    (rs : list request) :
  dom (jobs (run clock uuid4 rs initial).2)
    =@{gset string} list_to_set (issued (run clock uuid4 rs initial).1) ∧
  dom (job_status (run clock uuid4 rs initial).2)
    =@{gset string} list_to_set (issued (run clock uuid4 rs initial).1).
Proof.
  destruct (run_dom clock uuid4 rs initial) as [-> ->]. simpl.
  rewrite !dom_empty_L. set_solver.
Qed.

Lemma records_nonempty_initial : records_nonempty initial.
Proof. intros j job H. simpl in H. by rewrite lookup_empty in H. Qed.

Lemma records_nonempty_handle clock uuid4 r w :
  records_nonempty w → records_nonempty (handle clock uuid4 r w).2.
Proof.
  intros Hne. destruct r as [p|j|p]; simpl.
  - destruct (validate_request p packages_schema) as [e|] eqn:E.
    + by rewrite (put_packages_invalid _ _ _ e).
    + rewrite put_packages_valid by done. intros k job. simpl.
      destruct (decide (uuid4 (uuid_calls w) = k)) as [->|Hk].
      * rewrite lookup_insert_eq. by intros [= <-].
      * rewrite lookup_insert_ne by done. apply Hne.
  - unfold get_status.
    destruct (Dict.truthy (default [] (jobs w !! j))); [|done]. simpl.
    assert (∀ (job' : pydict) k v cur tc uc,
              records_nonempty
                {| jobs := <[j := Dict.set k v job']> (jobs w); job_status := cur;
                   time_calls := tc; uuid_calls := uc |}) as Hkeep.
    { intros job' k v cur tc uc i job. simpl.
      destruct (decide (j = i)) as [->|Hi].
      - rewrite lookup_insert_eq. intros [= <-]. apply truthy_set.
      - rewrite lookup_insert_ne by done. apply Hne. }
    destruct (job_status w !! j) as [[|s g]|]; simpl; try apply Hkeep.
    unfold with_jobs, with_job_status. simpl. rewrite insert_insert_eq. apply Hkeep.
  - by rewrite auth_login_world.
Qed.

Lemma records_nonempty_run clock uuid4 rs : ∀ w,
  records_nonempty w → records_nonempty (run clock uuid4 rs w).2.
Proof.
  induction rs as [|r rs IH]; intros w Hne; [done|].
  rewrite run_cons. simpl. by apply IH, records_nonempty_handle.
Qed.

(** X3: after any run from the empty store, a poll answers 404 exactly
    on the ids that no response of the run announced: an announced
    job is found ever after, an id never announced is never found. *)
Theorem not_found_iff_never_issued (clock : nat → Z) (uuid4 : nat → string)
    (rs : list request) (job_id : string) :
  (get_status clock job_id (run clock uuid4 rs initial).2).1 = Response (VDict []) 404
  ↔ job_id ∉ issued (run clock uuid4 rs initial).1.
Proof.
  pose proof (records_nonempty_run clock uuid4 rs initial records_nonempty_initial) as Hne.
  pose proof (store_holds_the_issued_ids_aux clock uuid4 rs) as Hdom.
  set (w := (run clock uuid4 rs initial).2) in *.
  assert (job_id ∉ issued (run clock uuid4 rs initial).1 ↔ jobs w !! job_id = None) as ->.
  { rewrite <- not_elem_of_dom, Hdom. set_solver. }
  split.
  - intros H404. destruct (jobs w !! job_id) as [job|] eqn:Hjob; [|done].
    exfalso. unfold get_status in H404. rewrite Hjob in H404. simpl in H404.
    rewrite (Hne _ _ Hjob) in H404. simpl in H404.
    by destruct (job_status w !! job_id) as [[|s g]|].
  - intros Hjob. by rewrite get_status_unknown.
Qed.

Lemma issued_cons clock uuid4 r rs w :
  issued (run clock uuid4 (r :: rs) w).1 =
    match issued_job_id (handle clock uuid4 r w).1 with
    | Some j => j :: issued (run clock uuid4 rs (handle clock uuid4 r w).2).1
    | None => issued (run clock uuid4 rs (handle clock uuid4 r w).2).1
    end.
Proof. by rewrite run_cons. Qed.

Lemma issued_NoDup clock uuid4 rs :
  Inj (=) (=) uuid4 → ∀ w, NoDup (issued (run clock uuid4 rs w).1).
Proof.
  intros Hinj. induction rs as [|r rs IH]; intros w; [constructor|].
  rewrite issued_cons.
  destruct (issued_job_id (handle clock uuid4 r w).1) as [j|] eqn:E; [|apply IH].
  apply issued_by_handle in E as [-> Hs].
  constructor; [|apply IH].
  intros Hin. apply issued_are_draws in Hin as (c & Hc & Heq).
  apply Hinj in Heq. lia.
Qed.

(** X4: when the uuid source never repeats itself, no job id is
    announced twice in a run, and the store holds as many jobs as the
    run has 201 responses. *)
Theorem one_job_per_accepted_submission (clock : nat → Z) (uuid4 : nat → string)
    (rs : list request) :
  Inj (=) (=) uuid4 →
  NoDup (issued (run clock uuid4 rs initial).1) ∧
  size (jobs (run clock uuid4 rs initial).2)
    = length (issued (run clock uuid4 rs initial).1).
Proof.
  intros Hinj.
  pose proof (issued_NoDup clock uuid4 rs Hinj initial) as Hnd.
  split; [done|].
  rewrite <- size_dom, store_holds_the_issued_ids_aux.
  by apply size_list_to_set.
Qed.

Lemma one_job_per_accepted_submission_witness :
  issued (run Sample.clock Sample.uuid4 Sample.two_jobs initial).1 = ["0"; "1"] ∧
  size (jobs (run Sample.clock Sample.uuid4 Sample.two_jobs initial).2)
    = length (issued (run Sample.clock Sample.uuid4 Sample.two_jobs initial).1).
Proof.
  split; [vm_compute; reflexivity|].
  exact (proj2 (one_job_per_accepted_submission Sample.clock Sample.uuid4
                  Sample.two_jobs sample_uuid4_inj)).
Defined.

(** ** A repeated id *)

(** X5: [put_packages] never looks whether the id it drew is in use: a
    valid submission stores a new record and a new cursor under it,
    whatever was stored there, so that the next poll on the id shows
    [NEW] and the record is started at the reading of the clock. *)
Theorem submission_overwrites (clock : nat → Z) (uuid4 : nat → string)
    (request_json : value) (w : world) :
  validate_request request_json packages_schema = None →
  let job_id := uuid4 (uuid_calls w) in
  let w' := (put_packages clock uuid4 request_json w).2 in
  (put_packages clock uuid4 request_json w).1
    = Response (VDict [("job_id", VStr job_id)]) 201 ∧
  jobs w' !! job_id = Some (job_record (clock (time_calls w))) ∧
  job_status w' !! job_id = Some update_status ∧
  snapshot_status (get_status clock job_id w').1 = Some "NEW" ∧
  snapshot_field "started_at" (get_status clock job_id w').1
    = Some (VInt (clock (time_calls w))).
Proof.
  intros Hv. cbv zeta. rewrite put_packages_valid by done. simpl.
  rewrite !lookup_insert_eq.
  rewrite (get_status_next _ _ (job_record (clock (time_calls w)))
             "NEW" ["PENDING"; "COMPLETED"]);
    simpl; rewrite ?lookup_insert_eq; try done.
Qed.

Lemma submission_overwrites_witness :
  map snapshot_status
    (run Sample.clock Sample2.stuck_uuid4
       [ PUT_packages Sample.foo; GET_status "0"; GET_status "0"; GET_status "0";
         GET_status "0" ] initial).1
    = [None; Some "NEW"; Some "PENDING"; Some "COMPLETED"; None] ∧
  snapshot_status
    (get_status Sample.clock "0"
       (put_packages Sample.clock Sample2.stuck_uuid4 Sample.foo
          (run Sample.clock Sample2.stuck_uuid4
             [ PUT_packages Sample.foo; GET_status "0"; GET_status "0"; GET_status "0";
               GET_status "0" ] initial).2).2).1
    = Some "NEW".
Proof.
  split; [vm_compute; reflexivity|].
  exact (proj1 (proj2 (proj2 (proj2
    (submission_overwrites Sample.clock Sample2.stuck_uuid4 Sample.foo
       (run Sample.clock Sample2.stuck_uuid4
          [ PUT_packages Sample.foo; GET_status "0"; GET_status "0"; GET_status "0";
            GET_status "0" ] initial).2 eq_refl))))).
Defined.

(** ** The stored status *)

Section Stored.

Variable clock : nat → Z.
Variable uuid4 : nat → string.
Hypothesis uuid4_inj : Inj (=) (=) uuid4.

(** A request other than a poll on a tracked job leaves its record
    as it is. *)
Lemma record_other job_id g r w :
  tracks uuid4 job_id g w →
  is_poll job_id r = false →
  jobs (handle clock uuid4 r w).2 !! job_id = jobs w !! job_id.
Proof.
  intros (_ & _ & c & Hc & ->) Hr. destruct r as [p|j|p]; simpl.
  - apply put_packages_frame. intros Heq. apply uuid4_inj in Heq. lia.
  - apply get_status_frame. simpl in Hr. apply String.eqb_neq in Hr. congruence.
  - by rewrite auth_login_world.
Qed.

Lemma shows_next job_id s g w :
  tracks uuid4 job_id (s :: g) w → shows job_id s (get_status clock job_id w).2.
Proof.
  intros ((job & Hjob & Ht) & Hcur & _).
  rewrite (get_status_next _ _ job s g) by done.
  unfold shows. simpl. rewrite lookup_insert_eq.
  eexists. split; [done|]. apply get_set_eq.
Qed.

Lemma shows_exhausted job_id s w :
  tracks uuid4 job_id [] w → shows job_id s w →
  shows job_id s (get_status clock job_id w).2.
Proof.
  intros ((job & Hjob & Ht) & Hcur & _) (job' & Hjob' & Hs).
  rewrite Hjob in Hjob'. injection Hjob' as <-.
  rewrite (get_status_exhausted _ _ job) by done.
  unfold shows. simpl. rewrite lookup_insert_eq.
  eexists. split; [done|]. by rewrite get_set_ne.
Qed.

Lemma last_take_cons (s s' : string) (g : generator) (n : nat) :
  default s (last (take (S n) (s' :: g))) = default s' (last (take n g)).
Proof.
  change (take (S n) (s' :: g)) with (s' :: take n g).
  rewrite last_cons. by destruct (last (take n g)).
Qed.

(** Where the cursor and the displayed status of a tracked job are
    after a run with [n] polls on it: the cursor has moved [n]
    places (and stays at its end), and the record displays the last
    value the cursor yielded, or what it displayed before if there
    was no poll. *)
Lemma run_tracks_shows job_id rs : ∀ w g s,
  tracks uuid4 job_id g w → shows job_id s w →
  let n := length (polls job_id rs (run clock uuid4 rs w).1) in
  tracks uuid4 job_id (drop n g) (run clock uuid4 rs w).2 ∧
  shows job_id (default s (last (take n g))) (run clock uuid4 rs w).2.
Proof.
  induction rs as [|r rs IH]; intros w g s Htr Hsh.
  { simpl. by rewrite drop_0. }
  cbv zeta. rewrite polls_cons. cbv zeta. rewrite run_cons. simpl.
  destruct (is_poll job_id r) eqn:Hr.
  - apply is_poll_true in Hr as ->. cbn [length handle]. destruct g as [|s' g].
    + destruct (tracks_exhausted clock uuid4 _ _ Htr) as [_ Htr'].
      pose proof (shows_exhausted _ _ _ Htr Hsh) as Hsh'.
      destruct (IH _ _ _ Htr' Hsh') as [H1 H2].
      rewrite drop_nil in H1 |- *. rewrite take_nil in H2 |- *. done.
    + destruct (tracks_next clock uuid4 _ _ _ _ Htr) as (_ & _ & Htr').
      pose proof (shows_next _ _ _ _ Htr) as Hsh'.
      destruct (IH _ _ _ Htr' Hsh') as [H1 H2].
      rewrite last_take_cons. split; [exact H1|exact H2].
  - pose proof (tracks_other clock uuid4 uuid4_inj _ _ _ _ Htr Hr) as Htr'.
    apply IH; [done|].
    destruct Hsh as (job & Hjob & Hs). exists job. split; [|done].
    by rewrite (record_other _ g).
Qed.

End Stored.

Lemma put_packages_shows clock uuid4 request_json w :
  validate_request request_json packages_schema = None →
  shows (uuid4 (uuid_calls w)) "PENDING" (put_packages clock uuid4 request_json w).2.
Proof.
  intros Hv. rewrite put_packages_valid by done.
  unfold shows. simpl. rewrite lookup_insert_eq. by eexists.
Qed.

(** X6: the status that a job's record stores is [PENDING] until the
    first poll, then whatever the latest successful poll showed:
    [NEW] after one poll, [PENDING] after two, [COMPLETED] after three
    or more (a poll that raises leaves it alone); the cursor has as
    many values left as there are polls missing to three. *)
Theorem stored_status_follows_polls (clock : nat → Z) (uuid4 : nat → string)
    (request_json : value) (w : world) (rs : list request) :
  Inj (=) (=) uuid4 →
  validate_request request_json packages_schema = None →
  let job_id := uuid4 (uuid_calls w) in
  let submitted := (put_packages clock uuid4 request_json w).2 in
  let n := length (polls job_id rs (run clock uuid4 rs submitted).1) in
  let w' := (run clock uuid4 rs submitted).2 in
  job_status w' !! job_id = Some (drop n ["NEW"; "PENDING"; "COMPLETED"]) ∧
  ∃ job, jobs w' !! job_id = Some job ∧
         Dict.get "status" job
           = Some (VStr (nth n ["PENDING"; "NEW"; "PENDING"] "COMPLETED")).
Proof.
  intros Hinj Hv. cbv zeta.
  pose proof (put_packages_tracks clock uuid4 _ w Hv) as Htr.
  pose proof (put_packages_shows clock uuid4 _ w Hv) as Hsh.
  destruct (run_tracks_shows clock uuid4 Hinj _ rs _ _ _ Htr Hsh) as [Htr' Hsh'].
  split; [apply Htr'|].
  destruct Hsh' as (job & Hjob & Hs). exists job. split; [done|].
  rewrite Hs. do 2 f_equal.
  by destruct (length _) as [|[|[|[|n]]]].
Qed.

Lemma stored_status_follows_polls_witness :
  length (polls "0" Sample.session
            (run Sample.clock Sample.uuid4 Sample.session
               (put_packages Sample.clock Sample.uuid4 Sample.foo initial).2).1) = 5%nat ∧
  ∃ job,
    jobs (run Sample.clock Sample.uuid4 Sample.session
            (put_packages Sample.clock Sample.uuid4 Sample.foo initial).2).2 !! "0"
      = Some job ∧
    Dict.get "status" job = Some (VStr "COMPLETED").
Proof.
  split; [vm_compute; reflexivity|].
  exact (proj2 (stored_status_follows_polls Sample.clock Sample.uuid4 Sample.foo initial
                  Sample.session sample_uuid4_inj eq_refl)).
Defined.

(** X7: a poll on a job that has been polled three times or more
    raises [StopIteration] and returns nothing, and yet it writes:
    the stored record is stamped with the reading of the clock, which
    the poll consumes, while the stored status stays [COMPLETED] and
    the cursor stays spent. *)
Theorem over_poll_still_stamps (clock : nat → Z) (uuid4 : nat → string)
    (request_json : value) (w : world) (rs : list request) :
  Inj (=) (=) uuid4 →
  validate_request request_json packages_schema = None →
  let job_id := uuid4 (uuid_calls w) in
  let submitted := (put_packages clock uuid4 request_json w).2 in
  let before := (run clock uuid4 rs submitted).2 in
  let after := (get_status clock job_id before).2 in
  (3 ≤ length (polls job_id rs (run clock uuid4 rs submitted).1))%nat →
  (get_status clock job_id before).1 = Raised StopIteration ∧
  time_calls after = S (time_calls before) ∧
  job_status after !! job_id = Some [] ∧
  ∃ job, jobs after !! job_id = Some job ∧
         Dict.get "last_updated" job = Some (VInt (clock (time_calls before))) ∧
         Dict.get "status" job = Some (VStr "COMPLETED").
Proof.
  intros Hinj Hv. cbv zeta. intros Hn.
  pose proof (put_packages_tracks clock uuid4 _ w Hv) as Htr.
  pose proof (put_packages_shows clock uuid4 _ w Hv) as Hsh.
  destruct (run_tracks_shows clock uuid4 Hinj _ rs _ _ _ Htr Hsh) as [Htr' Hsh'].
  rewrite drop_ge in Htr' by (simpl; lia).
  rewrite take_ge in Hsh' by (simpl; lia). simpl in Hsh'.
  destruct Htr' as ((job & Hjob & Ht) & Hcur & _).
  destruct Hsh' as (job' & Hjob' & Hs).
  rewrite Hjob in Hjob'. injection Hjob' as <-.
  rewrite (get_status_exhausted _ _ job) by done. simpl.
  rewrite lookup_insert_eq. repeat split; [done|].
  eexists. split; [done|]. by rewrite get_set_eq, get_set_ne.
Qed.

Lemma over_poll_still_stamps_witness :
  (get_status Sample.clock "0"
     (run Sample.clock Sample.uuid4 Sample.session
        (put_packages Sample.clock Sample.uuid4 Sample.foo initial).2).2).1
    = Raised StopIteration ∧
  ∃ job,
    jobs (get_status Sample.clock "0"
            (run Sample.clock Sample.uuid4 Sample.session
               (put_packages Sample.clock Sample.uuid4 Sample.foo initial).2).2).2 !! "0"
      = Some job ∧
    Dict.get "last_updated" job = Some (VInt 1600000008) ∧
    Dict.get "status" job = Some (VStr "COMPLETED").
Proof.
  assert (3 ≤ length (polls "0" Sample.session
                        (run Sample.clock Sample.uuid4 Sample.session
                           (put_packages Sample.clock Sample.uuid4 Sample.foo
                              initial).2).1))%nat as Hn.
  { vm_compute. lia. }
  destruct (over_poll_still_stamps Sample.clock Sample.uuid4 Sample.foo initial
              Sample.session sample_uuid4_inj eq_refl Hn)
    as (Hraise & _ & _ & job & Hjob & Hstamp & Hstatus).
  split; [exact Hraise|]. exists job. split; [exact Hjob|]. split; [|exact Hstatus].
  exact Hstamp.
Defined.

(** ** Time stamps *)

Lemma stamped_initial clock : stamped clock initial.
Proof. intros j job H. simpl in H. by rewrite lookup_empty in H. Qed.

(** Serving a request keeps every record between two readings of
    the clock: a submission starts its record at the current reading,
    a poll moves [last_updated] to the current reading and leaves
    [started_at] alone. *)
Lemma stamped_handle clock uuid4 r w :
  stamped clock w → stamped clock (handle clock uuid4 r w).2.
Proof.
  intros Hst. destruct r as [p|j|p]; simpl.
  - destruct (validate_request p packages_schema) as [e|] eqn:E.
    + by rewrite (put_packages_invalid _ _ _ e).
    + rewrite put_packages_valid by done. intros k job. simpl.
      destruct (decide (uuid4 (uuid_calls w) = k)) as [->|Hk].
      * rewrite lookup_insert_eq. intros [= <-].
        exists (time_calls w), (time_calls w). split; [lia|done].
      * rewrite lookup_insert_ne by done. intros Hjob.
        destruct (Hst k job Hjob) as (c & c' & Hc & Hs & Hl).
        exists c, c'. split; [lia|done].
  - assert (∀ job cur (f : pydict → pydict),
              jobs w !! j = Some job →
              (∀ d, Dict.get "started_at" (f d) = Dict.get "started_at" d) →
              (∀ d, Dict.get "last_updated" (f d) = Dict.get "last_updated" d) →
              stamped clock
                {| jobs := <[j := f (Dict.set "last_updated"
                                       (VInt (clock (time_calls w))) job)]> (jobs w);
                   job_status := cur;
                   time_calls := S (time_calls w); uuid_calls := uuid_calls w |})
      as Hkeep.
    { intros job cur f Hjob Hfs Hfl k job'. simpl.
      destruct (decide (j = k)) as [->|Hk].
      - rewrite lookup_insert_eq. intros [= <-].
        destruct (Hst k job Hjob) as (c & c' & Hc & Hs & Hl).
        exists c, (time_calls w). split; [lia|].
        rewrite Hfs, Hfl, get_set_ne, get_set_eq by done. done.
      - rewrite lookup_insert_ne by done. intros Hjob'.
        destruct (Hst k job' Hjob') as (c & c' & Hc & Hs & Hl).
        exists c, c'. split; [lia|done]. }
    destruct (jobs w !! j) as [job|] eqn:Hjob;
      [|by rewrite get_status_unknown].
    destruct (Dict.truthy job) eqn:Ht;
      [|unfold get_status; rewrite Hjob; simpl; by rewrite Ht].
    destruct (job_status w !! j) as [[|s g]|] eqn:Hcur.
    + rewrite (get_status_exhausted _ _ job) by done. simpl.
      by apply (Hkeep job _ (λ d, d)).
    + rewrite (get_status_next _ _ job s g) by done. simpl.
      apply (Hkeep job _ (Dict.set "status" (VStr s))); [done| |];
        intros d; by rewrite get_set_ne.
    + unfold get_status. rewrite Hjob. simpl. rewrite Ht, Hcur. simpl.
      by apply (Hkeep job _ (λ d, d)).
  - by rewrite auth_login_world.
Qed.

Lemma stamped_run clock uuid4 rs : ∀ w,
  stamped clock w → stamped clock (run clock uuid4 rs w).2.
Proof.
  induction rs as [|r rs IH]; intros w Hst; [done|].
  rewrite run_cons. simpl. by apply IH, stamped_handle.
Qed.

(** X8: with a clock that never runs backwards, every record stored
    after a run from the empty store carries an integer [started_at]
    and an integer [last_updated] that is not earlier. *)
Theorem last_updated_not_before_started_at (clock : nat → Z) (uuid4 : nat → string)
    (rs : list request) (job_id : string) (job : pydict) :
  monotone clock →
  jobs (run clock uuid4 rs initial).2 !! job_id = Some job →
  ∃ started_at last_updated : Z,
    Dict.get "started_at" job = Some (VInt started_at) ∧
    Dict.get "last_updated" job = Some (VInt last_updated) ∧
    (started_at ≤ last_updated)%Z.
Proof.
  intros Hmono Hjob.
  destruct (stamped_run clock uuid4 rs initial (stamped_initial clock) _ _ Hjob)
    as (c & c' & Hc & Hs & Hl).
  exists (clock c), (clock c'). split; [done|]. split; [done|].
  apply Hmono. lia.
Qed.

Lemma last_updated_not_before_started_at_witness :
  ∃ job started_at last_updated,
    jobs (run Sample.clock Sample.uuid4 Sample.two_jobs initial).2 !! "1" = Some job ∧
    Dict.get "started_at" job = Some (VInt started_at) ∧
    Dict.get "last_updated" job = Some (VInt last_updated) ∧
    (started_at ≤ last_updated)%Z.
Proof.
  assert (∃ job, jobs (run Sample.clock Sample.uuid4 Sample.two_jobs initial).2 !! "1"
                 = Some job) as [job Hjob].
  { eexists. vm_compute. reflexivity. }
  destruct (last_updated_not_before_started_at Sample.clock Sample.uuid4
              Sample.two_jobs "1" job sample_clock_monotone Hjob)
    as (a & b & Ha & Hb & Hab).
  exists job, a, b. split; [exact Hjob|]. split; [exact Ha|]. split; [exact Hb|exact Hab].
Defined.

(** ** Logging in *)

(** What [login_schema] accepts. *)
Lemma login_schema_valid request_json :
  validate_request request_json login_schema = None ↔
  login_contract request_json = true.
Proof.
  unfold validate_request, Voluptuous.call.
  assert (∀ errors : list invalid,
            match errors with [] => None | e :: es => Some (MultipleInvalid (e :: es)) end
            = None ↔ errors = []) as Hcall by (by intros []).
  rewrite Hcall.
  destruct request_json as [| | | | |items|d]; try done.
  unfold login_schema. cbn [Voluptuous.compile]. rewrite validate_mapping_valid.
  cbn [map fst List.filter is_required forallb marker_key login_contract].
  rewrite andb_true_r, !andb_true_iff.
  rewrite (Forall_forallb _ (λ kv, login_key kv.1 && is_str kv.2)); [tauto|].
  intros [k v]. unfold entry_valid, login_key.
  cbn [Voluptuous.candidate marker_key fst snd].
  rewrite !(String.eqb_sym k).
  destruct (String.eqb "login" k); [apply str_valid|].
  destruct (String.eqb "password" k); [apply str_valid|].
  done.
Qed.

(** X9: [auth_login] checks the shape of the request and nothing else:
    a mapping with exactly the keys [login] and [password], both
    strings (empty ones too), gets the two fixed tokens with 200,
    whatever the credentials; any other request raises
    [MultipleInvalid]; and in neither case is the state touched. *)
Theorem login_checks_shape_only (request_json : value) (w : world) :
  (auth_login request_json w).2 = w ∧
  ((auth_login request_json w).1
     = Response (VDict [ ("access_token", VStr "asdfghjkl");
                         ("refresh_token", VStr "qwertyuio") ]) 200
   ↔ login_contract request_json = true) ∧
  ((∃ errors, (auth_login request_json w).1 = Raised (MultipleInvalid errors))
   ↔ login_contract request_json = false).
Proof.
  split; [apply auth_login_world|].
  pose proof (login_schema_valid request_json) as Hiff.
  unfold auth_login.
  destruct (validate_request request_json login_schema) as [e|] eqn:Hv; simpl.
  - destruct (validate_request_raises _ _ _ Hv) as [errors ->].
    destruct (login_contract request_json).
    + by destruct Hiff as [_ Hiff]; specialize (Hiff eq_refl).
    + split; [done|]. split; [done|]. intros _. by exists errors.
  - rewrite (proj1 Hiff eq_refl). split; [done|].
    split; [by intros [errors H]|done].
Qed.

(** ** A request without packages *)

(** X10: the key [packages] is not required by [packages_schema]: among
    the mappings that lack it, the empty one, and only the empty one,
    is accepted, and its submission creates a job like any other. *)
Theorem empty_mapping_is_accepted (clock : nat → Z) (uuid4 : nat → string)
    (request_json : value) (w : world) :
  lacks_packages request_json = true →
  (∃ job_id, (put_packages clock uuid4 request_json w).1
               = Response (VDict [("job_id", VStr job_id)]) 201)
  ↔ request_json = VDict [].
Proof.
  intros Hlacks.
  destruct request_json as [| | | | |items|d]; try done.
  simpl in Hlacks. apply negb_true_iff in Hlacks.
  assert (validate_request (VDict d) packages_schema = None ↔ d = []) as Hiff.
  { rewrite packages_schema_valid. split.
    - intros (d' & [= <-] & Hall). destruct d as [|[k v] d]; [done|].
      simpl in Hall. apply andb_true_iff in Hall as [[Hk _]%andb_true_iff _].
      rewrite mem_cons, Hk in Hlacks. done.
    - intros ->. by exists []. }
  destruct (validate_request (VDict d) packages_schema) as [e|] eqn:Hv.
  - rewrite (put_packages_invalid _ _ _ e) by done. simpl.
    split; [by intros [job_id H]|].
    intros [= ->]. by destruct Hiff as [_ Hiff]; specialize (Hiff eq_refl).
  - rewrite put_packages_valid by done. simpl.
    split; [|by eexists]. intros _. f_equal. by apply Hiff.
Qed.

Lemma empty_mapping_is_accepted_witness :
  (put_packages Sample.clock Sample.uuid4 (VDict []) initial).1
    = Response (VDict [("job_id", VStr "0")]) 201 ∧
  ∃ job_id, (put_packages Sample.clock Sample.uuid4 (VDict []) initial).1
              = Response (VDict [("job_id", VStr job_id)]) 201.
Proof.
  split; [reflexivity|].
  apply (empty_mapping_is_accepted Sample.clock Sample.uuid4 (VDict []) initial);
    reflexivity.
Defined.

(** * The lock-file client *)

Section LockFile.

Import PackageLock.

Lemma getitem_ok obj key v :
  getitem obj key = Ok v ↔ ∃ d, obj = VDict d ∧ Dict.get key d = Some v.
Proof.
  destruct obj as [| | | | |l|d]; simpl;
    try (split; [done|by intros (d' & ? & _)]).
  destruct (Dict.get key d) as [v'|] eqn:E.
  - split; [intros [= <-]; by exists d|]. intros (d' & [= <-] & H). congruence.
  - split; [done|]. intros (d' & [= <-] & H). congruence.
Qed.

Lemma collect_ok entries : ∀ acc l,
  collect entries acc = Ok l ↔ ∃ l', l = acc ++ l' ∧ Forall2 listed entries l'.
Proof.
  induction entries as [|[key val] entries IH]; intros acc l; simpl.
  { split.
    - intros [= <-]. exists []. by rewrite app_nil_r.
    - intros (l' & -> & Hl'). apply Forall2_nil_inv_l in Hl' as ->.
      by rewrite app_nil_r. }
  destruct (getitem val "version") as [version|e] eqn:E.
  - apply getitem_ok in E as (fields & -> & Hversion).
    rewrite IH. split.
    + intros (l' & -> & Hl'). exists ((key, version) :: l').
      split; [by rewrite <- app_assoc|].
      constructor; [|done]. split; [done|]. by exists fields.
    + intros (l' & -> & Hl').
      apply Forall2_cons_inv_l in Hl' as ([k version'] & l'' & [Hk Hv] & Hl'' & ->).
      simpl in Hk, Hv. subst k.
      destruct Hv as (fields' & [= <-] & Hversion').
      rewrite Hversion in Hversion'. injection Hversion' as <-.
      exists l''. split; [by rewrite <- app_assoc|done].
  - split; [done|]. intros (l' & -> & Hl').
    apply Forall2_cons_inv_l in Hl' as ([k version'] & l'' & [_ Hv] & _ & _).
    simpl in Hv. destruct Hv as (fields & -> & Hversion).
    simpl in E. by rewrite Hversion in E.
Qed.

(** X11: the package list is built exactly when the decoded lock file is
    a dict whose [dependencies] is a dict of dicts that each hold a
    [version]; it then lists the dependencies in the order of the
    file, one pair per top-level dependency, each with its key and
    its [version]. *)
Theorem pkg_list_ok (pkg_data : value) (l : list (string * value)) :
  pkg_list pkg_data = Ok l ↔
  ∃ d dependencies,
    pkg_data = VDict d ∧
    Dict.get "dependencies" d = Some (VDict dependencies) ∧
    Forall2 listed dependencies l.
Proof.
  unfold pkg_list. split.
  - destruct (getitem pkg_data "dependencies") as [deps|e] eqn:E; [|done].
    apply getitem_ok in E as (d & -> & Hdeps).
    destruct deps as [| | | | |items|dependencies]; try done. simpl.
    intros (l' & -> & Hl')%collect_ok. by exists d, dependencies.
  - intros (d & dependencies & -> & Hdeps & Hl). simpl. rewrite Hdeps. simpl.
    apply collect_ok. by exists l.
Qed.

(** X12: the first dependency that is not a dict holding a [version]
    ends the run with what [val['version']] raises on it
    ([KeyError] for a dict without the key, [TypeError] for anything
    that is not a dict), whatever follows it in the file. *)
Theorem pkg_list_first_failure (d before after : pydict) (key : string)
    (val : value) (l : list (string * value)) (e : error) :
  Dict.get "dependencies" d = Some (VDict (before ++ (key, val) :: after)) →
  Forall2 listed before l →
  getitem val "version" = Raise e →
  pkg_list (VDict d) = Raise e ∧
  e = match val with VDict _ => KeyError "version" | _ => TypeError end.
Proof.
  intros Hdeps Hbefore Hval. split.
  - unfold pkg_list. simpl. rewrite Hdeps. simpl. clear Hdeps.
    generalize (@nil (string * value)) as acc. revert l Hbefore.
    induction before as [|[k v] before IH]; intros l Hl acc; simpl.
    + by rewrite Hval.
    + apply Forall2_cons_inv_l in Hl as ([k' version] & l' & [_ Hv] & Hl' & ->).
      simpl in Hv. destruct Hv as (fields & -> & Hversion). simpl.
      rewrite Hversion. by apply (IH l').
  - destruct val as [| | | | |items|fields]; simpl in Hval; try by injection Hval.
    destruct (Dict.get "version" fields); [done|]. by injection Hval.
Qed.

Lemma pkg_list_first_failure_witness :
  pkg_list
    (VDict [("dependencies",
             VDict [ ("left-pad", VDict [("version", VStr "1.3.0")]);
                     ("express", VDict [("resolved", VStr "https://example.org")]);
                     ("qs", VDict [("version", VStr "6.7.0")]) ])])
  = Raise (KeyError "version").
Proof.
  refine (proj1 (pkg_list_first_failure
            [("dependencies",
              VDict [ ("left-pad", VDict [("version", VStr "1.3.0")]);
                      ("express", VDict [("resolved", VStr "https://example.org")]);
                      ("qs", VDict [("version", VStr "6.7.0")]) ])]
            [("left-pad", VDict [("version", VStr "1.3.0")])]
            [("qs", VDict [("version", VStr "6.7.0")])]
            "express" (VDict [("resolved", VStr "https://example.org")])
            [("left-pad", VStr "1.3.0")] (KeyError "version") eq_refl _ eq_refl)).
  constructor; [|constructor]. split; [reflexivity|]. eexists. split; reflexivity.
Defined.

Lemma pkg_list_ok_witness :
  pkg_list Sample2.lockfile
    = Ok [("left-pad", VStr "1.3.0"); ("express", VStr "4.17.1")].
Proof.
  apply (proj2 (pkg_list_ok Sample2.lockfile _)).
  eexists _, _. split; [reflexivity|]. split; [reflexivity|].
  repeat constructor; eexists; split; reflexivity.
Defined.

End LockFile.

(** ** The text given to the command line *)

Section PkgInfo.

Import PackageLock.










End PkgInfo.
